(** * pkg/ovssubnet/subnets.go: the subnet reconciliation engine

    A shallow embedding of the master side (subnet allocation for nodes that
    join, leave or change address) and of the node side (bootstrap of the
    host's own subnet, mirroring of peer subnets into flow rules).

    The controller talks to three collaborators: the registry, the subnet
    allocator and the flow controller.  Every call to one of them is a
    constructor of [Call]; a Go function becomes a program of type [Prog],
    a tree of calls and continuations, which [run] executes against any
    handler.  Statements about the order of calls hold for every handler;
    statements about the registry's and the allocator's contents are made on
    the reference handler [model]. *)

From Stdlib Require Import String Ascii List NArith ZArith Bool Lia.
From Stdlib Require Import DecimalString DecimalN.
Import ListNotations.
Local Open Scope string_scope.
Local Open Scope list_scope.

Set Implicit Arguments.

Infix "+++" := String.append (right associativity, at level 60).

(* ===================================================================== *)
(** ** Data model (package api, package net) *)
(* ===================================================================== *)

(** A Go [error] value is represented by its message. *)
Definition error : Type := string.

(** A Go pair [(T, error)] with the convention that exactly one side is set. *)
Inductive result (A : Type) : Type :=
| Ok (a : A)
| Err (e : error).
Arguments Ok {A} a.
Arguments Err {A} e.

(** api.Node *)
Record Node : Type := mkNode { Name : string; IP : string }.

(** api.Subnet *)
Record Subnet : Type := mkSubnet { NodeIP : string; SubnetCIDR : string }.

(** api.EventType *)
Inductive EventType : Type := Added | Deleted.

(** api.NodeEvent *)
Record NodeEvent : Type := mkNodeEvent { NType : EventType; ENode : Node }.

(** api.SubnetEvent *)
Record SubnetEvent : Type := mkSubnetEvent { SType : EventType; ESubnet : Subnet }.

(** net.IPNet restricted to IPv4 (the source assumes IPv4): the address as a
    32-bit number and the mask as its number of leading ones. *)
Record IPNet : Type := mkIPNet { Addr : N; Ones : N }.

Definition IPNet_eqb (a b : IPNet) : bool :=
  (Addr a =? Addr b)%N && (Ones a =? Ones b)%N.

(** The address with its host bits cleared, for a mask of [ones] bits. *)
Definition mask_addr (ones addr : N) : N :=
  N.shiftl (N.shiftr addr (32 - ones)) (32 - ones).

(** net.IPNet.Contains *)
Definition Contains (n : IPNet) (addr : N) : bool :=
  (mask_addr (Ones n) addr =? Addr n)%N.

(** Two networks overlap when one holds the other's base address. *)
Definition overlap (a b : IPNet) : bool :=
  Contains a (Addr b) || Contains b (Addr a).

Definition dec (n : N) : string := NilEmpty.string_of_uint (N.to_uint n).

Definition octet (addr : N) (i : N) : N := N.land (N.shiftr addr (8 * i)) 255.

(** net.IPNet.String: dotted quad, slash, prefix length. *)
Definition IPNet_String (n : IPNet) : string :=
  dec (octet (Addr n) 3) +++ "." +++ dec (octet (Addr n) 2) +++ "." +++
  dec (octet (Addr n) 1) +++ "." +++ dec (octet (Addr n) 0) +++ "/" +++ dec (Ones n).

(** Cut a string at the first occurrence of a character. *)
Fixpoint cut (c : ascii) (s : string) : option (string * string) :=
  match s with
  | EmptyString => None
  | String a rest =>
      if Ascii.eqb a c then Some (EmptyString, rest)
      else match cut c rest with
           | Some (l, r) => Some (String a l, r)
           | None => None
           end
  end.

Definition parse_dec (s : string) : option N :=
  match s with
  | EmptyString => None
  | _ => match NilEmpty.uint_of_string s with
         | Some d => Some (N.of_uint d)
         | None => None
         end
  end.

Definition parse_octet (s : string) : option N :=
  match parse_dec s with
  | Some n => if (n <=? 255)%N then Some n else None
  | None => None
  end.

Definition parse_ipv4 (s : string) : option N :=
  match cut "." s with
  | Some (a, s1) =>
    match cut "." s1 with
    | Some (b, s2) =>
      match cut "." s2 with
      | Some (c, d) =>
        match parse_octet a, parse_octet b, parse_octet c, parse_octet d with
        | Some a, Some b, Some c, Some d =>
            Some (a * 16777216 + b * 65536 + c * 256 + d)%N
        | _, _, _, _ => None
        end
      | None => None
      end
    | None => None
    end
  | None => None
  end.

(** net.ParseCIDR restricted to IPv4; only the network it returns is used by
    the source.  The network's address is the parsed address with its host
    bits cleared. *)
Definition ParseCIDR (s : string) : result IPNet :=
  match cut "/" s with
  | Some (a, m) =>
    match parse_ipv4 a, parse_dec m with
    | Some addr, Some ones =>
        if (ones <=? 32)%N then Ok (mkIPNet (mask_addr ones addr) ones)
        else Err ("invalid CIDR address: " +++ s)
    | _, _ => Err ("invalid CIDR address: " +++ s)
    end
  | None => Err ("invalid CIDR address: " +++ s)
  end.

(** The fields of OvsController this file reads or writes.  The registry,
    the allocator and the flow controller are reached through [Call]. *)
Record OvsController : Type := mkOvsController {
  hostName : string;
  localIP : string;
  localSubnet : option Subnet;
  nodeMtu : N
}.

Definition set_localSubnet (oc : OvsController) (s : option Subnet) : OvsController :=
  mkOvsController (hostName oc) (localIP oc) s (nodeMtu oc).

(* ===================================================================== *)
(** ** Calls to the collaborators and programs over them *)
(* ===================================================================== *)

Inductive Call : Type :=
(* oc.registry *)
| GetSubnets
| GetSubnet (nodeName : string)
| CreateSubnet (nodeName : string) (sub : Subnet)
| DeleteSubnet (nodeName : string)
| GetClusterNetworkCIDR
| GetHostSubnetLength
| GetServicesNetworkCIDR
(* netutils.NewSubnetAllocator and oc.subnetAllocator *)
| NewSubnetAllocator (network : string) (capacity : N) (inUse : list string)
| GetNetwork
| ReleaseNetwork (ipnet : IPNet)
(* oc.flowController *)
| Setup (localSubnetCIDR clusterNetworkCIDR servicesNetworkCIDR : string) (mtu : N)
| AddOFRules (nodeIP subnetCIDR localIP : string)
| DelOFRules (nodeIP localIP : string)
(* time.Sleep, in nanoseconds *)
| Sleep (d : Z)
(* oc.watchAndGetResource("Node", watchNodes, getNodes) and
   oc.watchAndGetResource("HostSubnet", watchSubnets, getSubnets) *)
| WatchAndGetNodes
| WatchAndGetSubnets
(* go oc.registry.WatchNodes(...), go oc.registry.WatchSubnets(...) *)
| GoWatchNodes
| GoWatchSubnets
(* stop <- true *)
| SendStop.

(** What each call hands back to the caller. *)
Definition Reply (c : Call) : Type :=
  match c with
  | GetSubnets => result (list Subnet * string)
  | GetSubnet _ => result Subnet
  | CreateSubnet _ _ => option error
  | DeleteSubnet _ => option error
  | GetClusterNetworkCIDR => result string
  | GetHostSubnetLength => result Z
  | GetServicesNetworkCIDR => result string
  | NewSubnetAllocator _ _ _ => option error
  | GetNetwork => result IPNet
  | ReleaseNetwork _ => option error
  | Setup _ _ _ _ => option error
  | AddOFRules _ _ _ => unit
  | DelOFRules _ _ => unit
  | Sleep _ => unit
  | WatchAndGetNodes => result (list Node)
  | WatchAndGetSubnets => result (list Subnet)
  | GoWatchNodes => unit
  | GoWatchSubnets => unit
  | SendStop => unit
  end.

Inductive Prog (R : Type) : Type :=
| Ret (r : R)
| Do (c : Call) (k : Reply c -> Prog R).
Arguments Ret {R} r.
Arguments Do {R} c k.

Fixpoint bind {A B : Type} (m : Prog A) (f : A -> Prog B) : Prog B :=
  match m with
  | Ret a => f a
  | Do c k => Do c (fun x => bind (k x) f)
  end.

Declare Scope prog_scope.
Delimit Scope prog_scope with prog.
Notation "x <- c ;; k" := (Do c (fun x => k))
  (at level 100, c at next level, right associativity) : prog_scope.
Notation "x <~ m ;; k" := (bind m (fun x => k))
  (at level 100, m at next level, right associativity) : prog_scope.
Local Open Scope prog_scope.

(** One entry of an execution: the call and the reply it got. *)
Record Event : Type := Ev { ev_call : Call; ev_reply : Reply ev_call }.

Definition Handler (W : Type) : Type := forall c : Call, W -> Reply c * W.

Record Outcome (W R : Type) : Type :=
  mkOutcome { events : list Event; final : W; value : R }.

Fixpoint run {W R : Type} (h : Handler W) (p : Prog R) (w : W) : Outcome W R :=
  match p with
  | Ret r => mkOutcome [] w r
  | Do c k =>
      let xw := h c w in
      let o := run h (k (fst xw)) (snd xw) in
      mkOutcome (Ev c (fst xw) :: events o) (final o) (value o)
  end.

Definition calls {W R : Type} (o : Outcome W R) : list Call :=
  map ev_call (events o).

(* ===================================================================== *)
(** ** The functions of subnets.go *)
(* ===================================================================== *)

(** Calls to glog are left out: they read the values at hand and touch
    neither the controller nor its collaborators. *)

(** uint(hsl) on a 64-bit platform *)
Definition uint (z : Z) : N := Z.to_N (z mod 2 ^ 64).

Definition addNode (nodeName nodeIP : string) : Prog (option error) :=
  r <- GetNetwork ;;
  match r with
  | Err err => Ret (Some err)
  | Ok sn =>
      if (nodeIP =? "") || (nodeIP =? "127.0.0.1") then
        Ret (Some "Invalid node IP")
      else
        let subnet := mkSubnet nodeIP (IPNet_String sn) in
        err <- CreateSubnet nodeName subnet ;;
        match err with
        | Some err => Ret (Some err)
        | None => Ret None
        end
  end.

Fixpoint serveExistingNodes (nodes : list Node) : Prog (option error) :=
  match nodes with
  | [] => Ret None
  | node :: rest =>
      r <- GetSubnet (Name node) ;;
      match r with
      | Ok _ => serveExistingNodes rest
      | Err _ =>
          err <~ addNode (Name node) (IP node) ;;
          match err with
          | Some err => Ret (Some err)
          | None => serveExistingNodes rest
          end
      end
  end.

Definition subnetStartMaster : Prog (option error) :=
  r <- GetSubnets ;;
  match r with
  | Err err => Ret (Some err)
  | Ok (subnets, _) =>
      let subrange := map SubnetCIDR subnets in
      r <- GetClusterNetworkCIDR ;;
      match r with
      | Err err => Ret (Some err)
      | Ok cn =>
          r <- GetHostSubnetLength ;;
          match r with
          | Err err => Ret (Some err)
          | Ok hsl =>
              err <- NewSubnetAllocator cn (uint hsl) subrange ;;
              match err with
              | Some err => Ret (Some err)
              | None =>
                  r <- WatchAndGetNodes ;;
                  match r with
                  | Err err => Ret (Some err)
                  | Ok nodes => serveExistingNodes nodes
                  end
              end
          end
      end
  end.

Definition deleteNode (nodeName : string) : Prog (option error) :=
  r <- GetSubnet nodeName ;;
  match r with
  | Err err => Ret (Some err)
  | Ok sub =>
      match ParseCIDR (SubnetCIDR sub) with
      | Err err => Ret (Some err)
      | Ok ipnet =>
          _ <- ReleaseNetwork ipnet ;;
          err <- DeleteSubnet nodeName ;;
          Ret err
      end
  end.

Definition retries : nat := 20.
Definition Millisecond : Z := 1000000.
Definition retryInterval : Z := 500 * Millisecond.

(** The [for i := 0; i < retries; i++] loop of initSelfSubnet, with the
    number of iterations still to go and the current [subnet] and [err]. *)
Fixpoint initSelfSubnet_loop (host : string) (togo : nat)
    (subnet : option Subnet) (err : option error)
  : Prog (option Subnet * option error) :=
  match togo with
  | O => Ret (subnet, err)
  | S togo' =>
      r <- GetSubnet host ;;
      match r with
      | Ok s => Ret (Some s, None)
      | Err e =>
          _ <- Sleep retryInterval ;;
          initSelfSubnet_loop host togo' None (Some e)
      end
  end.

Definition initSelfSubnet (oc : OvsController) : Prog (OvsController * option error) :=
  se <~ initSelfSubnet_loop (hostName oc) retries None None ;;
  match snd se with
  | Some err =>
      Ret (oc, Some ("Failed to get subnet for this host: " +++ hostName oc +++
                     ", error: " +++ err))
  | None => Ret (set_localSubnet oc (fst se), None)
  end.

(** The sweep that ends subnetStartNode. *)
Fixpoint addRules (oc : OvsController) (subnets : list Subnet) : Prog unit :=
  match subnets with
  | [] => Ret tt
  | s :: rest =>
      _ <- AddOFRules (NodeIP s) (SubnetCIDR s) (localIP oc) ;;
      addRules oc rest
  end.

(** oc.localSubnet.SubnetCIDR; [localSubnet] is set whenever this is read,
    since initSelfSubnet has succeeded. *)
Definition localSubnetCIDR (oc : OvsController) : string :=
  match localSubnet oc with
  | Some s => SubnetCIDR s
  | None => ""
  end.

Definition subnetStartNode (oc : OvsController) : Prog (OvsController * option error) :=
  oe <~ initSelfSubnet oc ;;
  let oc := fst oe in
  match snd oe with
  | Some err => Ret (oc, Some err)
  | None =>
      r <- GetClusterNetworkCIDR ;;
      match r with
      | Err err => Ret (oc, Some err)
      | Ok clusterNetworkCIDR =>
          r <- GetServicesNetworkCIDR ;;
          match r with
          | Err err => Ret (oc, Some err)
          | Ok servicesNetworkCIDR =>
              err <- Setup (localSubnetCIDR oc) clusterNetworkCIDR
                           servicesNetworkCIDR (nodeMtu oc) ;;
              match err with
              | Some err => Ret (oc, Some err)
              | None =>
                  r <- WatchAndGetSubnets ;;
                  match r with
                  | Err err => Ret (oc, Some err)
                  | Ok subnets =>
                      _ <~ addRules oc subnets ;;
                      Ret (oc, None)
                  end
              end
          end
      end
  end.

(** What one [select] of a watch loop delivers. *)
Inductive Recv (E : Type) : Type :=
| RecvEvent (ev : E)
| RecvSig.
Arguments RecvEvent {E} ev.
Arguments RecvSig {E}.

(** How a run of a watch loop over a finite delivery sequence ends: the
    function returned, or it is waiting in [select]. *)
Inductive LoopEnd : Type := Returned | Waiting.

(** The body of [case ev := <-nodeEvent] in watchNodes.  Each [continue]
    ends the body, like reaching its end. *)
Definition watchNodes_event (ev : NodeEvent) : Prog unit :=
  match NType ev with
  | Added =>
      r <- GetSubnet (Name (ENode ev)) ;;
      match r with
      | Err _ =>
          _ <~ addNode (Name (ENode ev)) (IP (ENode ev)) ;;
          Ret tt
      | Ok sub =>
          if negb (NodeIP sub =? IP (ENode ev)) then
            err <- DeleteSubnet (Name (ENode ev)) ;;
            match err with
            | Some _ => Ret tt
            | None =>
                let sub := mkSubnet (IP (ENode ev)) (SubnetCIDR sub) in
                err <- CreateSubnet (Name (ENode ev)) sub ;;
                match err with
                | Some _ => Ret tt
                | None => Ret tt
                end
            end
          else Ret tt
      end
  | Deleted =>
      _ <~ deleteNode (Name (ENode ev)) ;;
      Ret tt
  end.

Fixpoint watchNodes_loop (inbox : list (Recv NodeEvent)) : Prog LoopEnd :=
  match inbox with
  | [] => Ret Waiting
  | RecvEvent ev :: rest =>
      _ <~ watchNodes_event ev ;;
      watchNodes_loop rest
  | RecvSig :: _ =>
      _ <- SendStop ;;
      Ret Returned
  end.

Definition watchNodes (inbox : list (Recv NodeEvent)) : Prog LoopEnd :=
  _ <- GoWatchNodes ;;
  watchNodes_loop inbox.

(** The body of [case ev := <-clusterEvent] in watchSubnets. *)
Definition watchSubnets_event (oc : OvsController) (ev : SubnetEvent) : Prog unit :=
  match SType ev with
  | Added =>
      _ <- AddOFRules (NodeIP (ESubnet ev)) (SubnetCIDR (ESubnet ev)) (localIP oc) ;;
      Ret tt
  | Deleted =>
      _ <- DelOFRules (NodeIP (ESubnet ev)) (localIP oc) ;;
      Ret tt
  end.

Fixpoint watchSubnets_loop (oc : OvsController) (inbox : list (Recv SubnetEvent))
  : Prog LoopEnd :=
  match inbox with
  | [] => Ret Waiting
  | RecvEvent ev :: rest =>
      _ <~ watchSubnets_event oc ev ;;
      watchSubnets_loop oc rest
  | RecvSig :: _ =>
      _ <- SendStop ;;
      Ret Returned
  end.

Definition watchSubnets (oc : OvsController) (inbox : list (Recv SubnetEvent))
  : Prog LoopEnd :=
  _ <- GoWatchSubnets ;;
  watchSubnets_loop oc inbox.

(* ===================================================================== *)
(** ** The reference handler: registry and allocator *)
(* ===================================================================== *)

(** Modelled from the spec: netutils.SubnetAllocator, which lives outside
    this file.  The allocator "issues and reclaims non-overlapping sub-ranges
    of a parent CIDR; pre-seeded with already-allocated ranges at startup".
    Its state is the parent network, the number of host bits of a sub-range
    and the sub-ranges in use (the exclusion set). *)
Record SubnetAllocator : Type := mkSubnetAllocator {
  network : IPNet;
  capacity : N;
  allocMap : list IPNet
}.

(** Modelled from the spec: the [i]-th sub-range of the parent [net] with
    [cap] host bits. *)
Definition nthSubnet (net : IPNet) (cap : N) (i : N) : IPNet :=
  mkIPNet (Addr net + i * 2 ^ cap) (32 - cap).

(** Modelled from the spec: every sub-range the allocator can issue, in
    address order. *)
Definition pool (net : IPNet) (cap : N) : list IPNet :=
  map (fun i => nthSubnet net cap (N.of_nat i))
      (seq 0 (N.to_nat (2 ^ (32 - Ones net - cap)))).

(** Membership in a list of networks, the exclusion set in particular. *)
Definition inUse (n : IPNet) (l : list IPNet) : bool := existsb (IPNet_eqb n) l.

(** Modelled from the spec: [GetNetwork() -> CIDR | ExhaustedError]; the
    first sub-range not in use is issued and joins the exclusion set. *)
Definition alloc_GetNetwork (a : SubnetAllocator) : result IPNet * SubnetAllocator :=
  match find (fun n => negb (inUse n (allocMap a))) (pool (network a) (capacity a)) with
  | Some n => (Ok n, mkSubnetAllocator (network a) (capacity a) (n :: allocMap a))
  | None => (Err "No subnets available.", a)
  end.

(** Modelled from the spec: [ReleaseNetwork(CIDR)]; the range leaves the
    exclusion set and may be issued again. *)
Definition alloc_ReleaseNetwork (n : IPNet) (a : SubnetAllocator)
  : option error * SubnetAllocator :=
  if inUse n (allocMap a) then
    (None, mkSubnetAllocator (network a) (capacity a)
             (filter (fun m => negb (IPNet_eqb n m)) (allocMap a)))
  else (Some "Provided subnet is already available.", a).

(** Modelled from the spec: the seeding of the allocator, outside this file.
    The existing subnets' CIDRs are replayed into the exclusion set; a CIDR
    that does not parse, is not a sub-range of the parent or was already
    replayed makes the set "inconsistent with the parent". *)
Fixpoint seed (net : IPNet) (cap : N) (cidrs : list string) : option (list IPNet) :=
  match cidrs with
  | [] => Some []
  | s :: rest =>
      match ParseCIDR s, seed net cap rest with
      | Ok n, Some l =>
          if inUse n (pool net cap) && negb (inUse n l) then Some (n :: l) else None
      | _, _ => None
      end
  end.

(** Modelled from the spec: [new(parentCIDR, prefixLen, excludedCIDRs) ->
    Allocator | error], failing when the excluded set is inconsistent with
    the parent. *)
Definition alloc_New (cn : string) (cap : N) (excluded : list string)
  : result SubnetAllocator :=
  match ParseCIDR cn with
  | Err e => Err e
  | Ok net =>
      if (cap <=? 32 - Ones net)%N then
        match seed net cap excluded with
        | Some l => Ok (mkSubnetAllocator net cap l)
        | None => Err "Excluded subnets are inconsistent with the network."
        end
      else Err "Subnet capacity cannot be larger than number of networks available."
  end.

(** Modelled from the spec: the registry, which lives outside this file.
    Subnet records are keyed by node name.  [CreateSubnet] accepts every
    record, so a second record for a name would show if the master ever
    wrote one; [GetSubnet] answers with the latest record of the name;
    [DeleteSubnet] removes what the name holds.  [outages] schedules
    transient failures: each registry call consumes one entry, and [true]
    makes the call fail without effect. *)
Record World : Type := mkWorld {
  registry : list (string * Subnet);
  subnetAllocator : option SubnetAllocator;
  outages : list bool;
  clusterNetworkCIDR : string;
  hostSubnetLength : Z;
  servicesNetworkCIDR : string;
  clusterNodes : list Node
}.

Definition set_registry (w : World) (r : list (string * Subnet)) : World :=
  mkWorld r (subnetAllocator w) (outages w) (clusterNetworkCIDR w)
          (hostSubnetLength w) (servicesNetworkCIDR w) (clusterNodes w).

Definition set_allocator (w : World) (a : option SubnetAllocator) : World :=
  mkWorld (registry w) a (outages w) (clusterNetworkCIDR w)
          (hostSubnetLength w) (servicesNetworkCIDR w) (clusterNodes w).

Definition set_outages (w : World) (o : list bool) : World :=
  mkWorld (registry w) (subnetAllocator w) o (clusterNetworkCIDR w)
          (hostSubnetLength w) (servicesNetworkCIDR w) (clusterNodes w).

(** Modelled from the spec: what [GetSubnet] finds for a node name. *)
Definition lookup (name : string) (r : list (string * Subnet)) : option Subnet :=
  match find (fun p => fst p =? name) r with
  | Some p => Some (snd p)
  | None => None
  end.

(** Modelled from the spec: what [DeleteSubnet] leaves of the registry. *)
Definition remove_name (name : string) (r : list (string * Subnet))
  : list (string * Subnet) :=
  filter (fun p => negb (fst p =? name)) r.

(** The error of a registry call made during an outage. *)
Definition unavailable : error := "registry unavailable".

(** Modelled from the spec: one registry call.  [body] runs unless the
    schedule says the registry is out, in which case [fail] is the reply and
    nothing changes ("any registry call failure during steady-state event
    handling"). *)
Definition registry_call {X : Type} (fail : X) (body : World -> X * World)
    (w : World) : X * World :=
  match outages w with
  | true :: o => (fail, set_outages w o)
  | false :: o => body (set_outages w o)
  | [] => body w
  end.

(** Modelled from the spec: the collaborators of section 6, none of which is
    in this file.  The registry and the allocator are as described above; the
    flow controller, the pause and the channel operations leave the world as
    it is.  An allocator that was never built answers with an error (in Go
    the call would dereference nil; the master builds the allocator before
    any such call). *)
Definition model : Handler World :=
  fun c =>
    match c as c0 return World -> Reply c0 * World with
    | GetSubnets =>
        registry_call (Err unavailable)
          (fun w => (Ok (map snd (registry w), ""), w))
    | GetSubnet name =>
        registry_call (Err unavailable)
          (fun w => match lookup name (registry w) with
                    | Some s => (Ok s, w)
                    | None => (Err "subnet not found", w)
                    end)
    | CreateSubnet name sub =>
        registry_call (Some unavailable)
          (fun w => (None, set_registry w ((name, sub) :: registry w)))
    | DeleteSubnet name =>
        registry_call (Some unavailable)
          (fun w => match lookup name (registry w) with
                    | Some _ => (None, set_registry w (remove_name name (registry w)))
                    | None => (Some "subnet not found", w)
                    end)
    | GetClusterNetworkCIDR =>
        registry_call (Err unavailable) (fun w => (Ok (clusterNetworkCIDR w), w))
    | GetHostSubnetLength =>
        registry_call (Err unavailable) (fun w => (Ok (hostSubnetLength w), w))
    | GetServicesNetworkCIDR =>
        registry_call (Err unavailable) (fun w => (Ok (servicesNetworkCIDR w), w))
    | NewSubnetAllocator cn cap excluded =>
        fun w => match alloc_New cn cap excluded with
                 | Ok a => (None, set_allocator w (Some a))
                 | Err e => (Some e, set_allocator w None)
                 end
    | GetNetwork =>
        fun w => match subnetAllocator w with
                 | Some a => (fst (alloc_GetNetwork a),
                              set_allocator w (Some (snd (alloc_GetNetwork a))))
                 | None => (Err "no allocator", w)
                 end
    | ReleaseNetwork n =>
        fun w => match subnetAllocator w with
                 | Some a => (fst (alloc_ReleaseNetwork n a),
                              set_allocator w (Some (snd (alloc_ReleaseNetwork n a))))
                 | None => (Some "no allocator", w)
                 end
    | Setup _ _ _ _ => fun w => (None, w)
    | AddOFRules _ _ _ => fun w => (tt, w)
    | DelOFRules _ _ => fun w => (tt, w)
    | Sleep _ => fun w => (tt, w)
    | WatchAndGetNodes =>
        registry_call (Err unavailable) (fun w => (Ok (clusterNodes w), w))
    | WatchAndGetSubnets =>
        registry_call (Err unavailable) (fun w => (Ok (map snd (registry w)), w))
    | GoWatchNodes => fun w => (tt, w)
    | GoWatchSubnets => fun w => (tt, w)
    | SendStop => fun w => (tt, w)
    end.

(** The network a Subnet record's CIDR stands for. *)
Definition net_of (p : string * Subnet) : IPNet :=
  match ParseCIDR (SubnetCIDR (snd p)) with
  | Ok n => n
  | Err _ => mkIPNet 0 0
  end.

Definition parses (p : string * Subnet) : Prop :=
  exists n, ParseCIDR (SubnetCIDR (snd p)) = Ok n.

(** The CIDRs of the live Subnet records, as networks. *)
Definition live_nets (w : World) : list IPNet := map net_of (registry w).

(** The allocator's exclusion set. *)
Definition excluded (w : World) : list IPNet :=
  match subnetAllocator w with
  | Some a => allocMap a
  | None => []
  end.


(* ===================================================================== *)
(** ** Shapes of executions *)
(* ===================================================================== *)

(** A lookup that failed, followed by the pause before the next attempt. *)
Definition failed_attempt (host : string) (e : error) : list Event :=
  [Ev (GetSubnet host) (Err e); Ev (Sleep retryInterval) tt].

Definition failed_attempts (host : string) (es : list error) : list Event :=
  flat_map (failed_attempt host) es.

Definition is_lookup (c : Call) : bool :=
  match c with GetSubnet _ => true | _ => false end.

Definition is_rule_call (c : Call) : bool :=
  match c with AddOFRules _ _ _ => true | DelOFRules _ _ => true | _ => false end.

(** The flow-controller call a subnet event stands for. *)
Definition rule_call (oc : OvsController) (ev : SubnetEvent) : Call :=
  match SType ev with
  | Added => AddOFRules (NodeIP (ESubnet ev)) (SubnetCIDR (ESubnet ev)) (localIP oc)
  | Deleted => DelOFRules (NodeIP (ESubnet ev)) (localIP oc)
  end.

Definition add_rule (oc : OvsController) (s : Subnet) : Call :=
  AddOFRules (NodeIP s) (SubnetCIDR s) (localIP oc).

Definition events_only {E : Type} (evs : list E) : list (Recv E) := map RecvEvent evs.

(* ===================================================================== *)
(** ** Invariants of the master *)
(* ===================================================================== *)

(** A network in the form net.ParseCIDR returns it and IPNet.String prints
    it back: a prefix of at most 32 bits, an address of 32 bits, host bits
    cleared. *)
Definition canonical (n : IPNet) : Prop :=
  (Ones n <= 32)%N /\ (Addr n < 2 ^ 32)%N /\ mask_addr (Ones n) (Addr n) = Addr n.

Definition wf_allocator (a : SubnetAllocator) : Prop :=
  canonical (network a) /\
  (capacity a <= 32 - Ones (network a))%N /\
  incl (allocMap a) (pool (network a) (capacity a)).

Definition pairwise_disjoint (l : list IPNet) : Prop :=
  ForallOrdPairs (fun a b => overlap a b = false) l.

(** No transient failure of the registry is scheduled. *)
Definition reliable (w : World) : Prop := outages w = [].

(** One record per node name, every CIDR a network, no network recorded
    twice, and every recorded network in the allocator's exclusion set. *)
Definition Inv (w : World) : Prop :=
  reliable w /\
  NoDup (map fst (registry w)) /\
  Forall parses (registry w) /\
  NoDup (live_nets w) /\
  exists a, subnetAllocator w = Some a /\ wf_allocator a /\
            incl (live_nets w) (allocMap a).

(** Allocator state = registry state. *)
Definition Synced (w : World) : Prop :=
  Inv w /\ incl (excluded w) (live_nets w).

Definition invalid_ip (ip : string) : bool := (ip =? "") || (ip =? "127.0.0.1").

(** An Added event that carries an address addNode accepts. *)
Definition valid_event (ev : NodeEvent) : Prop :=
  match NType ev with
  | Added => invalid_ip (IP (ENode ev)) = false
  | Deleted => True
  end.

(** The world after the master's watch loop has handled [evs]. *)
Definition master_after (w : World) (evs : list NodeEvent) : World :=
  final (run model (watchNodes (events_only evs)) w).

(** C1 as the spec words it, at one point of the master's life. *)
Definition disjoint_and_synced (w : World) : Prop :=
  Forall parses (registry w) /\
  pairwise_disjoint (live_nets w) /\
  incl (live_nets w) (excluded w) /\ incl (excluded w) (live_nets w).

(** A cluster 10.1.0.0/16 cut into /24 subnets, two nodes, empty registry. *)
Definition w0 : World :=
  mkWorld [] None [] "10.1.0.0/16" 8 "172.30.0.0/16"
          [mkNode "n1" "192.168.0.1"; mkNode "n2" "192.168.0.2"].

(** [w0] after the master has started. *)
Definition w1 : World := final (run model subnetStartMaster w0).

(** A node that reports the loopback address joins. *)
Definition loopback_joins : list NodeEvent :=
  [mkNodeEvent Added (mkNode "n3" "127.0.0.1")].

(** A node joins, changes its address, and another node leaves. *)
Definition busy_day : list NodeEvent :=
  [mkNodeEvent Added (mkNode "n3" "192.168.0.3");
   mkNodeEvent Added (mkNode "n3" "192.168.0.33");
   mkNodeEvent Deleted (mkNode "n1" "192.168.0.1");
   mkNodeEvent Added (mkNode "n4" "192.168.0.4")].

(** A node's subnet was created for it. *)
Definition allocated_for (name : string) (cs : list Call) : Prop :=
  exists sub, In (CreateSubnet name sub) cs.

(** C7 as the spec words it: the sweep allocates for a node exactly when the
    node has no Subnet record. *)
Definition sweep_iff (w : World) (nodes : list Node) : Prop :=
  forall node, In node nodes ->
    (allocated_for (Name node) (calls (run model (serveExistingNodes nodes) w))
     <-> lookup (Name node) (registry w) = None).

(** [w0] with its allocator built and no node served yet. *)
Definition w_seeded : World :=
  set_allocator w0 (Some (mkSubnetAllocator (mkIPNet 167837696 16) 8 [])).

(** A first node without an address yet, a second with one. *)
Definition early_nodes : list Node :=
  [mkNode "n1" ""; mkNode "n2" "192.168.0.2"].

(** Node n1 holds 10.1.5.0/24 and was last seen at 1.1.1.1. *)
Definition w_n1 : World :=
  mkWorld [("n1", mkSubnet "1.1.1.1" "10.1.5.0/24")]
          (Some (mkSubnetAllocator (mkIPNet 167837696 16) 8 [mkIPNet 167838976 24]))
          [] "10.1.0.0/16" 8 "172.30.0.0/16" [].

(** [w1] with the registry out for the next call. *)
Definition w1_outage : World := set_outages w1 [true].

(** [w1] with the registry up for the next call and out for the one after. *)
Definition w1_delete_outage : World := set_outages w1 [false; true].

(** Node n1 leaves, then node n3 joins. *)
Definition leave_then_join : list NodeEvent :=
  [mkNodeEvent Deleted (mkNode "n1" "192.168.0.1");
   mkNodeEvent Added (mkNode "n3" "192.168.0.3")].

(* ===================================================================== *)
(** ** Which collaborator a program may reach *)
(* ===================================================================== *)

(** [avoids bad p]: no execution of [p], whatever the replies, makes a call
    that [bad] marks. *)
Inductive avoids {R : Type} (bad : Call -> bool) : Prog R -> Prop :=
| avoids_Ret (r : R) : avoids bad (Ret r)
| avoids_Do (c : Call) (k : Reply c -> Prog R) :
    bad c = false -> (forall x, avoids bad (k x)) -> avoids bad (Do c k).

(** Calls that write the registry or reach the allocator. *)
Definition master_only (c : Call) : bool :=
  match c with
  | CreateSubnet _ _ | DeleteSubnet _ | NewSubnetAllocator _ _ _
  | GetNetwork | ReleaseNetwork _ | WatchAndGetNodes | GoWatchNodes => true
  | _ => false
  end.

(** Calls that reach the flow controller, pause, or watch subnets. *)
Definition node_only (c : Call) : bool :=
  match c with
  | Setup _ _ _ _ | AddOFRules _ _ _ | DelOFRules _ _ | Sleep _
  | WatchAndGetSubnets | GoWatchSubnets | GetServicesNetworkCIDR => true
  | _ => false
  end.

(** The time spent in time.Sleep, in nanoseconds. *)
Definition slept (cs : list Call) : Z :=
  fold_right (fun c acc => match c with Sleep d => (d + acc)%Z | _ => acc end) 0%Z cs.

(** The message fmt.Errorf builds in initSelfSubnet. *)
Definition bootstrap_error (host : string) (err : error) : error :=
  "Failed to get subnet for this host: " +++ host +++ ", error: " +++ err.

(** The reads and the set-up that subnetStartNode makes once the host's own
    subnet [s] is known. *)
Definition node_config_events (oc : OvsController) (s : Subnet) (cn sn : string)
  : list Event :=
  [Ev GetClusterNetworkCIDR (Ok cn);
   Ev GetServicesNetworkCIDR (Ok sn);
   Ev (Setup (SubnetCIDR s) cn sn (nodeMtu oc)) None].

(** The calls by which subnetStartMaster builds the allocator. *)
Definition master_seed_events (subnets : list Subnet) (version cn : string) (hsl : Z)
  : list Event :=
  [Ev GetSubnets (Ok (subnets, version));
   Ev GetClusterNetworkCIDR (Ok cn);
   Ev GetHostSubnetLength (Ok hsl);
   Ev (NewSubnetAllocator cn (uint hsl) (map SubnetCIDR subnets)) None].

(** A node joins and leaves again. *)
Definition join_then_leave (name ip : string) : list NodeEvent :=
  [mkNodeEvent Added (mkNode name ip); mkNodeEvent Deleted (mkNode name ip)].

(** The call that builds the allocator. *)
Definition builds_allocator (c : Call) : bool :=
  match c with NewSubnetAllocator _ _ _ => true | _ => false end.

(** What the registry holds besides the Subnet records. *)
Definition config (w : World) : string * Z * string * list Node :=
  (clusterNetworkCIDR w, hostSubnetLength w, servicesNetworkCIDR w, clusterNodes w).

(** The parent network and the sub-range size of the allocator, if built. *)
Definition parent (w : World) : option (IPNet * N) :=
  match subnetAllocator w with
  | Some a => Some (network a, capacity a)
  | None => None
  end.

(** C3 as the spec words it, at one point of the master's life: one record
    per node name, and an Added event that repeats the IP a node's Subnet
    records changes neither the registry nor the allocator. *)
Definition one_record_and_replay_is_noop (w : World) : Prop :=
  NoDup (map fst (registry w)) /\
  forall name sub,
    lookup name (registry w) = Some sub ->
    let o := run model (watchNodes_event (mkNodeEvent Added (mkNode name (NodeIP sub)))) w in
    registry (final o) = registry w /\
    subnetAllocator (final o) = subnetAllocator w /\
    NoDup (map fst (registry (final o))).

(** Two nodes that hold a Subnet in [w1] and, between them, one that does
    not. *)
Definition mixed_nodes : list Node :=
  [mkNode "n1" "192.168.0.1"; mkNode "n3" "192.168.0.3"; mkNode "n2" "192.168.0.2"].

(* ===================================================================== *)
(** * Properties *)
(* ===================================================================== *)

Unset Implicit Arguments.

(** *** Printing and parsing of networks *)

Lemma cut_digits (c : ascii) (d : Decimal.uint) (s : string) :
  (c = "." \/ c = "/")%char ->
  cut c (NilEmpty.string_of_uint d +++ s) =
  match cut c s with
  | Some (l, r) => Some (NilEmpty.string_of_uint d +++ l, r)
  | None => None
  end.
Proof.
  intros Hc. induction d; simpl;
    try (destruct Hc as [-> | ->]; simpl; rewrite IHd;
         destruct (cut _ s) as [[l r] |]; reflexivity).
  destruct (cut c s) as [[l r] |]; reflexivity.
Qed.

Lemma append_empty (s : string) : s +++ "" = s.
Proof. induction s; simpl; congruence. Qed.

Lemma cut_dec_dot (n : N) (s : string) :
  cut "." (dec n +++ String "." s) = Some (dec n, s).
Proof.
  unfold dec. rewrite cut_digits by (left; reflexivity). simpl.
  rewrite append_empty. reflexivity.
Qed.

Lemma cut_slash_dec_dot (n : N) (s : string) :
  cut "/" (dec n +++ String "." s) =
  match cut "/" s with
  | Some (l, r) => Some (dec n +++ String "." l, r)
  | None => None
  end.
Proof.
  unfold dec. rewrite cut_digits by (right; reflexivity). simpl.
  destruct (cut "/" s) as [[l r] |]; reflexivity.
Qed.

Lemma cut_dec_slash (n : N) (s : string) :
  cut "/" (dec n +++ String "/" s) = Some (dec n, s).
Proof.
  unfold dec. rewrite cut_digits by (right; reflexivity). simpl.
  rewrite append_empty. reflexivity.
Qed.

Lemma parse_dec_dec (n : N) : parse_dec (dec n) = Some n.
Proof.
  unfold parse_dec, dec.
  assert (Hne : N.to_uint n <> Decimal.Nil).
  { destruct n; simpl; [discriminate | apply DecimalPos.Unsigned.to_uint_nonnil]. }
  rewrite NilEmpty.usu, DecimalN.Unsigned.of_to.
  destruct (N.to_uint n) eqn:E; try congruence; reflexivity.
Qed.

Lemma run_bind W A B (h : Handler W) (m : Prog A) (f : A -> Prog B) (w : W) :
  run h (bind m f) w =
  mkOutcome (events (run h m w) ++ events (run h (f (value (run h m w))) (final (run h m w))))
            (final (run h (f (value (run h m w))) (final (run h m w))))
            (value (run h (f (value (run h m w))) (final (run h m w)))).
Proof.
  revert w. induction m as [a | c k IH]; intros w; simpl.
  - destruct (run h (f a) w); reflexivity.
  - rewrite IH. reflexivity.
Qed.

Lemma events_bind W A B (h : Handler W) (m : Prog A) (f : A -> Prog B) w :
  events (run h (bind m f) w) =
  events (run h m w) ++ events (run h (f (value (run h m w))) (final (run h m w))).
Proof. rewrite run_bind. reflexivity. Qed.

Lemma final_bind W A B (h : Handler W) (m : Prog A) (f : A -> Prog B) w :
  final (run h (bind m f) w) = final (run h (f (value (run h m w))) (final (run h m w))).
Proof. rewrite run_bind. reflexivity. Qed.

Lemma value_bind W A B (h : Handler W) (m : Prog A) (f : A -> Prog B) w :
  value (run h (bind m f) w) = value (run h (f (value (run h m w))) (final (run h m w))).
Proof. rewrite run_bind. reflexivity. Qed.

Lemma calls_bind W A B (h : Handler W) (m : Prog A) (f : A -> Prog B) w :
  calls (run h (bind m f) w) =
  calls (run h m w) ++ calls (run h (f (value (run h m w))) (final (run h m w))).
Proof. unfold calls. rewrite events_bind, map_app. reflexivity. Qed.

(** *** deleteNode *)

(** C5, for every behaviour of the collaborators: deleteNode looks the
    subnet up, parses its CIDR, releases the parsed network and then deletes
    the record, in this order; when the lookup or the parse fails it returns
    that error and the lookup is the only call it made. *)
Theorem deleteNode_steps W (h : Handler W) (w : W) (nodeName : string) :
  let o := run h (deleteNode nodeName) w in
  (exists e, events o = [Ev (GetSubnet nodeName) (Err e)] /\ value o = Some e)
  \/ (exists sub e,
        ParseCIDR (SubnetCIDR sub) = Err e /\
        events o = [Ev (GetSubnet nodeName) (Ok sub)] /\ value o = Some e)
  \/ (exists sub ipnet released deleted,
        ParseCIDR (SubnetCIDR sub) = Ok ipnet /\
        events o = [Ev (GetSubnet nodeName) (Ok sub);
                    Ev (ReleaseNetwork ipnet) released;
                    Ev (DeleteSubnet nodeName) deleted] /\
        value o = deleted).
Proof.
  simpl. unfold deleteNode. simpl.
  destruct (h (GetSubnet nodeName) w) as [[sub | e] w1] eqn:Hget; simpl.
  - destruct (ParseCIDR (SubnetCIDR sub)) as [ipnet | e] eqn:Hparse; simpl.
    + right; right. exists sub, ipnet. do 2 eexists. split; [assumption|].
      split; reflexivity.
    + right; left. exists sub, e. repeat split; assumption.
  - left. exists e. split; reflexivity.
Qed.

(** *** initSelfSubnet *)

Lemma last_cons_nonempty A (a d : A) (l : list A) :
  l <> [] -> last (a :: l) d = last l d.
Proof. destruct l; [congruence | reflexivity]. Qed.

Lemma initSelfSubnet_loop_shape W (h : Handler W) (host : string) (togo : nat) :
  forall (w : W) (subnet : option Subnet) (err : option error),
  let o := run h (initSelfSubnet_loop host togo subnet err) w in
  (exists es,
      length es = togo /\ events o = failed_attempts host es /\
      (togo <> 0 -> value o = (None, Some (last es ""))))
  \/ (exists es s,
        length es < togo /\
        events o = failed_attempts host es ++ [Ev (GetSubnet host) (Ok s)] /\
        value o = (Some s, None)).
Proof.
  induction togo as [| togo IH]; intros w subnet err; simpl.
  - left. exists []. repeat split. congruence.
  - destruct (h (GetSubnet host) w) as [[s | e] w1] eqn:Hget; simpl.
    + right. exists [], s. repeat split. simpl; lia.
    + destruct (h (Sleep retryInterval) w1) as [[] w2] eqn:Hsleep; simpl.
      destruct (IH w2 None (Some e)) as [(es & Hlen & Hev & Hval) | (es & s & Hlen & Hev & Hval)].
      * left. exists (e :: es). split; [simpl; congruence|]. split.
        -- simpl. rewrite Hev. reflexivity.
        -- intros _. destruct togo as [| togo'].
           ++ destruct es; [reflexivity | discriminate].
           ++ rewrite Hval by congruence.
              rewrite last_cons_nonempty; [reflexivity|]. destruct es; [discriminate | congruence].
      * right. exists (e :: es), s. split; [simpl; lia|]. split; [|assumption].
        simpl. rewrite Hev. reflexivity.
Qed.

Lemma lookups_failed_attempts host es :
  length (filter is_lookup (map ev_call (failed_attempts host es))) = length es.
Proof. induction es as [| e es IH]; simpl; congruence. Qed.

(** C6, for every behaviour of the registry: either 20 lookups of the host's
    name fail, each followed by a pause of 500 ms, and initSelfSubnet returns
    an error with the controller, its local subnet included, as it was; or
    fewer than 20 lookups fail (each followed by the same pause), the next
    one succeeds, nothing is called after it, and the controller returned
    has the subnet of that lookup as its local subnet and its other fields
    as they were.  In particular a registry that never returns a subnet gets
    exactly 20 lookups. *)
Theorem initSelfSubnet_retries W (h : Handler W) (w : W) (oc : OvsController) :
  let o := run h (initSelfSubnet oc) w in
  retryInterval = 500000000%Z /\
  ((exists es msg,
       length es = 20 /\
       events o = failed_attempts (hostName oc) es /\
       length (filter is_lookup (calls o)) = 20 /\
       value o = (oc, Some msg) /\
       localSubnet (fst (value o)) = localSubnet oc)
   \/ (exists es s,
         length es < 20 /\
         events o = failed_attempts (hostName oc) es ++ [Ev (GetSubnet (hostName oc)) (Ok s)] /\
         value o = (set_localSubnet oc (Some s), None) /\
         snd (value o) = None /\
         localSubnet (fst (value o)) = Some s /\
         hostName (fst (value o)) = hostName oc /\
         localIP (fst (value o)) = localIP oc /\
         nodeMtu (fst (value o)) = nodeMtu oc)).
Proof.
  cbv zeta. split; [reflexivity|].
  unfold initSelfSubnet. rewrite run_bind. cbn [events value final].
  destruct (initSelfSubnet_loop_shape W h (hostName oc) retries w None None)
    as [(es & Hlen & Hev & Hval) | (es & s & Hlen & Hev & Hval)].
  - left. rewrite (Hval ltac:(discriminate)). cbn [snd fst run events value final].
    eexists es, _. split; [exact Hlen|]. rewrite app_nil_r. split; [exact Hev|].
    split; [|split; reflexivity].
    unfold calls. cbn [events]. rewrite Hev, lookups_failed_attempts. exact Hlen.
  - right. rewrite Hval. cbn [snd fst run events value final]. exists es, s.
    split; [exact Hlen|].
    rewrite app_nil_r. split; [exact Hev|].
    cbn [set_localSubnet localSubnet hostName localIP nodeMtu].
    repeat split.
Qed.

(** *** The watch loops and the shutdown signal *)

Lemma watchNodes_loop_app W (h : Handler W) (pre : list NodeEvent) :
  forall (w : W) (rest : list (Recv NodeEvent)),
  let o1 := run h (watchNodes_loop (events_only pre)) w in
  let o2 := run h (watchNodes_loop rest) (final o1) in
  run h (watchNodes_loop (events_only pre ++ rest)) w =
  mkOutcome (events o1 ++ events o2) (final o2) (value o2).
Proof.
  induction pre as [| ev pre IH]; intros w rest; simpl.
  - destruct (run h (watchNodes_loop rest) w); reflexivity.
  - rewrite !run_bind. cbn [events final value]. rewrite IH. cbn [events final value].
    rewrite app_assoc. reflexivity.
Qed.

Lemma watchSubnets_loop_app W (h : Handler W) oc (pre : list SubnetEvent) :
  forall (w : W) (rest : list (Recv SubnetEvent)),
  let o1 := run h (watchSubnets_loop oc (events_only pre)) w in
  let o2 := run h (watchSubnets_loop oc rest) (final o1) in
  run h (watchSubnets_loop oc (events_only pre ++ rest)) w =
  mkOutcome (events o1 ++ events o2) (final o2) (value o2).
Proof.
  induction pre as [| ev pre IH]; intros w rest; simpl.
  - destruct (run h (watchSubnets_loop oc rest) w); reflexivity.
  - rewrite !run_bind. cbn [events final value]. rewrite IH. cbn [events final value].
    rewrite app_assoc. reflexivity.
Qed.

Lemma watchNodes_loop_waits W (h : Handler W) (pre : list NodeEvent) (w : W) :
  value (run h (watchNodes_loop (events_only pre)) w) = Waiting.
Proof.
  revert w. induction pre as [| ev pre IH]; intros w; simpl; [reflexivity|].
  rewrite value_bind. apply IH.
Qed.

Lemma watchSubnets_loop_waits W (h : Handler W) oc (pre : list SubnetEvent) (w : W) :
  value (run h (watchSubnets_loop oc (events_only pre)) w) = Waiting.
Proof.
  revert w. induction pre as [| ev pre IH]; intros w; simpl; [reflexivity|].
  rewrite value_bind. apply IH.
Qed.

(** C9, for every behaviour of the collaborators and both loops: when the
    shutdown signal is delivered after the events [pre], the loop has done
    exactly what it does for [pre], then sends the stop request and returns;
    whatever would have been delivered afterwards ([late]) causes no call and
    changes nothing.  Before the signal the loop does not return. *)
Theorem watch_loops_stop_on_signal W (h : Handler W) (w : W) (oc : OvsController)
    (pre : list NodeEvent) (spre : list SubnetEvent)
    (late : list (Recv NodeEvent)) (slate : list (Recv SubnetEvent)) :
  let n1 := run h (watchNodes (events_only pre)) w in
  let n2 := run h (watchNodes (events_only pre ++ RecvSig :: late)) w in
  let s1 := run h (watchSubnets oc (events_only spre)) w in
  let s2 := run h (watchSubnets oc (events_only spre ++ RecvSig :: slate)) w in
  (events n2 = events n1 ++ [Ev SendStop (fst (h SendStop (final n1)))] /\
   final n2 = snd (h SendStop (final n1)) /\
   value n2 = Returned /\ value n1 = Waiting)
  /\
  (events s2 = events s1 ++ [Ev SendStop (fst (h SendStop (final s1)))] /\
   final s2 = snd (h SendStop (final s1)) /\
   value s2 = Returned /\ value s1 = Waiting).
Proof.
  cbv zeta. unfold watchNodes, watchSubnets. cbn [run events final value]. split.
  - rewrite watchNodes_loop_app. cbn. repeat split. apply watchNodes_loop_waits.
  - rewrite watchSubnets_loop_app. cbn. repeat split. apply watchSubnets_loop_waits.
Qed.

(** *** The node side: flow rules *)

Lemma addRules_events W (h : Handler W) oc (subnets : list Subnet) (w : W) :
  events (run h (addRules oc subnets) w) = map (fun s => Ev (add_rule oc s) tt) subnets.
Proof.
  revert w. induction subnets as [| s rest IH]; intros w; simpl; [reflexivity|].
  assert (Hu : forall u : unit, Ev (add_rule oc s) u = Ev (add_rule oc s) tt)
    by (intros []; reflexivity).
  rewrite IH. exact (f_equal (fun e => e :: _) (Hu (fst (h (add_rule oc s) w)))).
Qed.

Lemma no_rule_in_failed_attempts host es :
  filter is_rule_call (map ev_call (failed_attempts host es)) = [].
Proof. induction es as [| e es IH]; simpl; [reflexivity | exact IH]. Qed.

Lemma initSelfSubnet_no_rules W (h : Handler W) oc (w : W) :
  filter is_rule_call (calls (run h (initSelfSubnet oc) w)) = [] /\
  localIP (fst (value (run h (initSelfSubnet oc) w))) = localIP oc.
Proof.
  unfold initSelfSubnet, calls. rewrite run_bind. cbn [events value final].
  destruct (initSelfSubnet_loop_shape W h (hostName oc) retries w None None)
    as [(es & Hlen & Hev & Hval) | (es & s & Hlen & Hev & Hval)].
  - rewrite (Hval ltac:(discriminate)), Hev. cbn [snd fst run events value final].
    rewrite app_nil_r. split; [apply no_rule_in_failed_attempts | reflexivity].
  - rewrite Hval, Hev. cbn [snd fst run events value final].
    rewrite app_nil_r, map_app, filter_app, no_rule_in_failed_attempts.
    split; reflexivity.
Qed.

Lemma watchSubnets_loop_calls W (h : Handler W) oc (evs : list SubnetEvent) (w : W) :
  calls (run h (watchSubnets_loop oc (events_only evs)) w) = map (rule_call oc) evs.
Proof.
  revert w. induction evs as [| ev evs IH]; intros w; [reflexivity|].
  cbn [events_only map watchSubnets_loop]. rewrite calls_bind, IH.
  unfold watchSubnets_event, rule_call. destruct (SType ev); reflexivity.
Qed.

Lemma no_rule_before_snapshot (oc : OvsController) (host : string) (es : list error)
    (s : Subnet) (tail : list Event) :
  filter is_rule_call (map ev_call tail) = [] ->
  filter is_rule_call
    (map ev_call ((failed_attempts host es ++ [Ev (GetSubnet host) (Ok s)]) ++ tail)) = [].
Proof.
  intros Htail. rewrite !map_app, !filter_app, no_rule_in_failed_attempts, Htail.
  reflexivity.
Qed.

Lemma rule_calls_of_sweep (oc : OvsController) (subnets : list Subnet) :
  filter is_rule_call (map ev_call (map (fun p => Ev (add_rule oc p) tt) subnets))
  = map (add_rule oc) subnets.
Proof.
  induction subnets as [| p rest IH]; [reflexivity|].
  cbn [map ev_call filter add_rule is_rule_call]. f_equal. exact IH.
Qed.

(** Every way subnetStartNode can run, by the first step that fails. *)
Lemma subnetStartNode_trace W (h : Handler W) (w : W) (oc : OvsController) :
  let o := run h (subnetStartNode oc) w in
  (exists es msg,
      length es = 20 /\ events o = failed_attempts (hostName oc) es /\
      value o = (oc, Some msg))
  \/ (exists es s,
        length es < 20 /\
        let found := failed_attempts (hostName oc) es ++ [Ev (GetSubnet (hostName oc)) (Ok s)] in
        (exists e, events o = found ++ [Ev GetClusterNetworkCIDR (Err e)] /\
                   snd (value o) = Some e)
        \/ (exists cn e,
              events o = found ++ [Ev GetClusterNetworkCIDR (Ok cn);
                                   Ev GetServicesNetworkCIDR (Err e)] /\
              snd (value o) = Some e)
        \/ (exists cn sn e,
              events o = found ++ [Ev GetClusterNetworkCIDR (Ok cn);
                                   Ev GetServicesNetworkCIDR (Ok sn);
                                   Ev (Setup (SubnetCIDR s) cn sn (nodeMtu oc)) (Some e)] /\
              snd (value o) = Some e)
        \/ (exists cn sn e,
              events o = found ++ node_config_events oc s cn sn
                         ++ [Ev WatchAndGetSubnets (Err e)] /\
              snd (value o) = Some e)
        \/ (exists cn sn subnets,
              events o = found ++ node_config_events oc s cn sn
                         ++ Ev WatchAndGetSubnets (Ok subnets)
                            :: map (fun p => Ev (add_rule oc p) tt) subnets /\
              snd (value o) = None)).
Proof.
  cbv zeta. unfold subnetStartNode, node_config_events. rewrite run_bind.
  cbn [events value final].
  unfold initSelfSubnet. rewrite !run_bind. cbn [events value final].
  set (o0 := run h (initSelfSubnet_loop (hostName oc) retries None None) w).
  destruct (initSelfSubnet_loop_shape W h (hostName oc) retries w None None)
    as [(es & Hlen & Hev & Hval) | (es & s & Hlen & Hev & Hval)]; fold o0 in Hev, Hval.
  - left. rewrite (Hval ltac:(discriminate)), Hev. cbn [snd fst run events value final].
    exists es. eexists. rewrite !app_nil_r. split; [exact Hlen|]. split; reflexivity.
  - right. exists es, s. split; [exact Hlen|].
    rewrite Hval, Hev. cbn [snd fst run events value final]. rewrite app_nil_r.
    destruct (h GetClusterNetworkCIDR (final o0)) as [[cn | e] w2];
      cbn [fst snd run events value final].
    2:{ left. exists e. split; reflexivity. }
    destruct (h GetServicesNetworkCIDR w2) as [[sn | e] w3]; cbn [fst snd run events value final].
    2:{ right; left. exists cn, e. split; reflexivity. }
    unfold localSubnetCIDR. cbn [localSubnet set_localSubnet nodeMtu].
    destruct (h (Setup (SubnetCIDR s) cn sn (nodeMtu oc)) w3) as [[e |] w4];
      cbn [fst snd run events value final].
    { right; right; left. exists cn, sn, e. split; reflexivity. }
    destruct (h WatchAndGetSubnets w4) as [[subnets | e] w5];
      cbn [fst snd run events value final].
    2:{ right; right; right; left. exists cn, sn, e. split; reflexivity. }
    right; right; right; right. exists cn, sn, subnets.
    rewrite run_bind. cbn [fst snd run events value final].
    rewrite addRules_events, app_nil_r. split; reflexivity.
Qed.

(** C8, for every behaviour of the collaborators.  subnetStartNode runs in
    one of six ways, told apart by the first step that fails: the bootstrap,
    the read of the cluster network, the read of the services network, Setup,
    the fetch of the subnets, or none.  In the first five the error of that
    step is returned, nothing is called after it and no flow rule was called.
    In the last, the snapshot of subnets is followed by exactly one
    AddOFRules(NodeIP, SubnetCIDR, localIP) per subnet of the snapshot, in
    order, nothing else, and no error is returned; no flow rule is called
    before the snapshot.  The live loop answers each Added subnet event with
    AddOFRules of the event's NodeIP and SubnetCIDR and each Deleted one with
    DelOFRules of the event's NodeIP, one call per event, in order. *)
Theorem node_propagator_rules W (h : Handler W) (w : W) (oc : OvsController)
    (evs : list SubnetEvent) :
  let o := run h (subnetStartNode oc) w in
  ((exists es msg,
       length es = 20 /\ events o = failed_attempts (hostName oc) es /\
       value o = (oc, Some msg) /\ filter is_rule_call (calls o) = [])
   \/ (exists es s,
         length es < 20 /\
         let found := failed_attempts (hostName oc) es
                      ++ [Ev (GetSubnet (hostName oc)) (Ok s)] in
         (exists e, events o = found ++ [Ev GetClusterNetworkCIDR (Err e)] /\
                    snd (value o) = Some e /\ filter is_rule_call (calls o) = [])
         \/ (exists cn e,
               events o = found ++ [Ev GetClusterNetworkCIDR (Ok cn);
                                    Ev GetServicesNetworkCIDR (Err e)] /\
               snd (value o) = Some e /\ filter is_rule_call (calls o) = [])
         \/ (exists cn sn e,
               events o = found ++ [Ev GetClusterNetworkCIDR (Ok cn);
                                    Ev GetServicesNetworkCIDR (Ok sn);
                                    Ev (Setup (SubnetCIDR s) cn sn (nodeMtu oc)) (Some e)] /\
               snd (value o) = Some e /\ filter is_rule_call (calls o) = [])
         \/ (exists cn sn e,
               events o = found ++ node_config_events oc s cn sn
                          ++ [Ev WatchAndGetSubnets (Err e)] /\
               snd (value o) = Some e /\ filter is_rule_call (calls o) = [])
         \/ (exists cn sn subnets,
               events o = found ++ node_config_events oc s cn sn
                          ++ Ev WatchAndGetSubnets (Ok subnets)
                             :: map (fun p => Ev (add_rule oc p) tt) subnets /\
               snd (value o) = None /\
               filter is_rule_call (map ev_call (found ++ node_config_events oc s cn sn))
               = [] /\
               filter is_rule_call (calls o) = map (add_rule oc) subnets)))
  /\ calls (run h (watchSubnets oc (events_only evs)) w)
     = GoWatchSubnets :: map (rule_call oc) evs.
Proof.
  cbv zeta. split.
  - unfold calls.
    destruct (subnetStartNode_trace W h w oc)
      as [(es & msg & Hlen & Hev & Hval)
         | (es & s & Hlen &
            [(e & Hev & Hval) | [(cn & e & Hev & Hval) | [(cn & sn & e & Hev & Hval)
             | [(cn & sn & e & Hev & Hval) | (cn & sn & subnets & Hev & Hval)]]]])].
    + left. exists es, msg. rewrite Hev at 2. rewrite no_rule_in_failed_attempts.
      repeat split; assumption.
    + right. exists es, s. split; [exact Hlen|]. left. exists e.
      rewrite Hev at 2. rewrite (no_rule_before_snapshot oc) by reflexivity.
      repeat split; assumption.
    + right. exists es, s. split; [exact Hlen|]. right; left. exists cn, e.
      rewrite Hev at 2. rewrite (no_rule_before_snapshot oc) by reflexivity.
      repeat split; assumption.
    + right. exists es, s. split; [exact Hlen|]. right; right; left. exists cn, sn, e.
      rewrite Hev at 2. rewrite (no_rule_before_snapshot oc) by reflexivity.
      repeat split; assumption.
    + right. exists es, s. split; [exact Hlen|]. right; right; right; left.
      exists cn, sn, e.
      rewrite Hev at 2. rewrite (no_rule_before_snapshot oc) by reflexivity.
      repeat split; assumption.
    + right. exists es, s. split; [exact Hlen|]. right; right; right; right.
      exists cn, sn, subnets. split; [exact Hev|]. split; [exact Hval|].
      split; [apply (no_rule_before_snapshot oc); reflexivity|].
      rewrite Hev, app_assoc, map_app, filter_app.
      rewrite (no_rule_before_snapshot oc) by reflexivity.
      cbn [app map ev_call filter is_rule_call]. apply rule_calls_of_sweep.
  - unfold watchSubnets, calls. cbn [run events map ev_call]. f_equal.
    apply watchSubnets_loop_calls.
Qed.

(** *** Networks: printing, parsing and the allocator's pool *)

Lemma octet_div (addr i : N) : octet addr i = ((addr / 2 ^ (8 * i)) mod 256)%N.
Proof.
  unfold octet. change 255%N with (N.ones 8).
  rewrite N.land_ones, N.shiftr_div_pow2. reflexivity.
Qed.

Lemma octet_le (addr i : N) : (octet addr i <= 255)%N.
Proof.
  rewrite octet_div.
  pose proof (N.mod_upper_bound (addr / 2 ^ (8 * i)) 256 ltac:(discriminate)). lia.
Qed.

Lemma octets_sum (addr : N) :
  (addr < 2 ^ 32)%N ->
  (octet addr 3 * 16777216 + octet addr 2 * 65536 + octet addr 1 * 256 + octet addr 0
   = addr)%N.
Proof.
  intros H. rewrite !octet_div.
  change (2 ^ (8 * 3))%N with (256 * 256 * 256)%N.
  change (2 ^ (8 * 2))%N with (256 * 256)%N.
  change (2 ^ (8 * 1))%N with 256%N. change (2 ^ (8 * 0))%N with 1%N.
  change (2 ^ 32)%N with 4294967296%N in H.
  rewrite <- !N.Div0.div_div. rewrite N.div_1_r.
  pose proof (N.div_mod' addr 256) as E0.
  pose proof (N.mod_upper_bound addr 256 ltac:(discriminate)) as B0.
  pose proof (N.div_mod' (addr / 256) 256) as E1.
  pose proof (N.mod_upper_bound (addr / 256) 256 ltac:(discriminate)) as B1.
  pose proof (N.div_mod' (addr / 256 / 256) 256) as E2.
  pose proof (N.mod_upper_bound (addr / 256 / 256) 256 ltac:(discriminate)) as B2.
  assert (B3 : (addr / 256 / 256 / 256 < 256)%N).
  { revert E0 B0 E1 B1 E2 B2.
    generalize (addr mod 256)%N ((addr / 256) mod 256)%N ((addr / 256 / 256) mod 256)%N
               (addr / 256 / 256 / 256)%N.
    generalize (addr / 256 / 256)%N. generalize (addr / 256)%N. intros. lia. }
  rewrite (N.mod_small _ _ B3).
  revert E0 B0 E1 B1 E2 B2 B3.
  generalize (addr mod 256)%N ((addr / 256) mod 256)%N ((addr / 256 / 256) mod 256)%N
             (addr / 256 / 256 / 256)%N.
  generalize (addr / 256 / 256)%N. generalize (addr / 256)%N. intros. lia.
Qed.

Lemma parse_octet_dec (addr i : N) : parse_octet (dec (octet addr i)) = Some (octet addr i).
Proof.
  unfold parse_octet. rewrite parse_dec_dec.
  pose proof (octet_le addr i) as H. apply N.leb_le in H. rewrite H. reflexivity.
Qed.

(** What IPNet.String prints, net.ParseCIDR reads back. *)
Lemma ParseCIDR_String (n : IPNet) : canonical n -> ParseCIDR (IPNet_String n) = Ok n.
Proof.
  intros (Hones & Haddr & Hmask). unfold ParseCIDR, IPNet_String.
  repeat match goal with
         | |- context [ "." +++ ?s ] => change ("." +++ s) with (String "." s)
         | |- context [ "/" +++ ?s ] => change ("/" +++ s) with (String "/" s)
         end.
  rewrite !cut_slash_dec_dot, cut_dec_slash.
  unfold parse_ipv4. rewrite !cut_dec_dot.
  rewrite !parse_octet_dec, parse_dec_dec, octets_sum by exact Haddr.
  apply N.leb_le in Hones. rewrite Hones, Hmask. destruct n; reflexivity.
Qed.

Lemma IPNet_eqb_eq (a b : IPNet) : IPNet_eqb a b = true <-> a = b.
Proof.
  unfold IPNet_eqb. rewrite andb_true_iff, !N.eqb_eq.
  destruct a, b; simpl; split; [intros [-> ->]; reflexivity | intros [= -> ->]; auto].
Qed.

Lemma inUse_In (n : IPNet) (l : list IPNet) : inUse n l = true <-> In n l.
Proof.
  unfold inUse. rewrite existsb_exists. split.
  - intros (m & Hin & Heq). apply IPNet_eqb_eq in Heq. subst. exact Hin.
  - intros Hin. exists n. split; [exact Hin | apply IPNet_eqb_eq; reflexivity].
Qed.

Lemma inUse_not_In (n : IPNet) (l : list IPNet) : inUse n l = false <-> ~ In n l.
Proof.
  rewrite <- inUse_In. destruct (inUse n l); split; intros; congruence.
Qed.

Lemma mask_addr_div (ones addr : N) :
  mask_addr ones addr = (addr / 2 ^ (32 - ones) * 2 ^ (32 - ones))%N.
Proof. unfold mask_addr. rewrite N.shiftl_mul_pow2, N.shiftr_div_pow2. reflexivity. Qed.

Lemma In_pool (net : IPNet) (cap : N) (n : IPNet) :
  In n (pool net cap) <->
  exists i, (i < 2 ^ (32 - Ones net - cap))%N /\ n = nthSubnet net cap i.
Proof.
  unfold pool. rewrite in_map_iff. split.
  - intros (k & <- & Hk). apply in_seq in Hk. exists (N.of_nat k). split; [lia | reflexivity].
  - intros (i & Hi & ->). exists (N.to_nat i). rewrite N2Nat.id. split; [reflexivity|].
    apply in_seq. lia.
Qed.

Section Pool.
Variables (net : IPNet) (cap : N).
Hypothesis Hnet : canonical net.
Hypothesis Hcap : (cap <= 32 - Ones net)%N.

(** The parent's address is a multiple of the size of a sub-range. *)
Lemma parent_multiple :
  exists k, Addr net = (k * 2 ^ (32 - Ones net - cap) * 2 ^ cap)%N /\
            (k < 2 ^ Ones net)%N.
Proof.
  destruct Hnet as (Hones & Haddr & Hmask). rewrite mask_addr_div in Hmask.
  exists (Addr net / 2 ^ (32 - Ones net))%N.
  assert (Hpow : (2 ^ (32 - Ones net) = 2 ^ (32 - Ones net - cap) * 2 ^ cap)%N).
  { rewrite <- N.pow_add_r. f_equal. lia. }
  split.
  - rewrite <- N.mul_assoc, <- Hpow. symmetry. exact Hmask.
  - apply N.Div0.div_lt_upper_bound.
    rewrite <- N.pow_add_r. replace (32 - Ones net + Ones net)%N with 32%N by lia.
    exact Haddr.
Qed.

Lemma nthSubnet_canonical (i : N) :
  (i < 2 ^ (32 - Ones net - cap))%N -> canonical (nthSubnet net cap i).
Proof.
  intros Hi. destruct parent_multiple as (k & Hk & Hlt).
  destruct Hnet as (Hones & Haddr & _).
  unfold canonical, nthSubnet. cbn [Ones Addr]. split; [lia|].
  assert (H32 : (2 ^ 32 = 2 ^ Ones net * 2 ^ (32 - Ones net - cap) * 2 ^ cap)%N).
  { rewrite <- !N.pow_add_r. f_equal. lia. }
  split.
  - rewrite Hk, H32.
    set (s := (2 ^ (32 - Ones net - cap))%N) in *. set (e := (2 ^ cap)%N) in *.
    set (p := (2 ^ Ones net)%N) in *.
    assert (He : (0 < e)%N) by (apply N.neq_0_lt_0, N.pow_nonzero; discriminate).
    assert (Hs : (k * s + i < p * s)%N).
    { apply N.lt_le_trans with ((k + 1) * s)%N; [lia|].
      apply N.mul_le_mono_r. lia. }
    replace (k * s * e + i * e)%N with ((k * s + i) * e)%N by lia.
    apply N.mul_lt_mono_pos_r; assumption.
  - rewrite mask_addr_div. replace (32 - (32 - cap))%N with cap by lia.
    rewrite Hk. rewrite <- N.mul_add_distr_r.
    rewrite N.div_mul by (apply N.pow_nonzero; discriminate). reflexivity.
Qed.

Lemma pool_canonical (n : IPNet) : In n (pool net cap) -> canonical n.
Proof.
  intros Hin. apply In_pool in Hin. destruct Hin as (i & Hi & ->).
  apply nthSubnet_canonical. exact Hi.
Qed.

(** Two different sub-ranges of the pool share no address. *)
Lemma pool_disjoint (a b : IPNet) :
  In a (pool net cap) -> In b (pool net cap) -> a <> b -> overlap a b = false.
Proof.
  intros Ha Hb Hne.
  pose proof (pool_canonical a Ha) as (_ & _ & Hma).
  pose proof (pool_canonical b Hb) as (_ & _ & Hmb).
  apply In_pool in Ha, Hb. destruct Ha as (i & Hi & ->). destruct Hb as (j & Hj & ->).
  unfold overlap, Contains. cbn [Ones Addr nthSubnet] in *.
  rewrite Hma, Hmb. apply orb_false_iff.
  split; apply N.eqb_neq; intros Heq; apply Hne; unfold nthSubnet; congruence.
Qed.
End Pool.

(** *** The allocator *)

Lemma alloc_GetNetwork_Ok (a a' : SubnetAllocator) (n : IPNet) :
  alloc_GetNetwork a = (Ok n, a') ->
  In n (pool (network a) (capacity a)) /\ ~ In n (allocMap a) /\
  a' = mkSubnetAllocator (network a) (capacity a) (n :: allocMap a).
Proof.
  unfold alloc_GetNetwork.
  destruct (find _ (pool (network a) (capacity a))) as [m |] eqn:Hfind; [|discriminate].
  intros [= -> <-]. apply find_some in Hfind. destruct Hfind as [Hin Hfree].
  apply negb_true_iff, inUse_not_In in Hfree. auto.
Qed.

Lemma alloc_GetNetwork_Err (a a' : SubnetAllocator) (e : error) :
  alloc_GetNetwork a = (Err e, a') -> a' = a.
Proof.
  unfold alloc_GetNetwork.
  destruct (find _ (pool (network a) (capacity a))); [discriminate|]. congruence.
Qed.

Lemma alloc_ReleaseNetwork_spec (n : IPNet) (a : SubnetAllocator) :
  let a' := snd (alloc_ReleaseNetwork n a) in
  network a' = network a /\ capacity a' = capacity a /\
  forall m, In m (allocMap a') <-> In m (allocMap a) /\ m <> n.
Proof.
  unfold alloc_ReleaseNetwork. destruct (inUse n (allocMap a)) eqn:Huse; cbn.
  - split; [reflexivity|]. split; [reflexivity|]. intros m.
    rewrite filter_In, negb_true_iff.
    assert (Heqb : IPNet_eqb n m = false <-> m <> n).
    { destruct (IPNet_eqb n m) eqn:E.
      - apply IPNet_eqb_eq in E. split; [discriminate | congruence].
      - split; [|reflexivity]. intros _ ->.
        assert (IPNet_eqb n n = true) by (apply IPNet_eqb_eq; reflexivity). congruence. }
    tauto.
  - apply inUse_not_In in Huse.
    split; [reflexivity|]. split; [reflexivity|]. intros m.
    split; [|tauto]. intros Hm. split; [exact Hm|]. intros ->. tauto.
Qed.

(** *** The registry *)

Lemma lookup_In (name : string) (r : list (string * Subnet)) (s : Subnet) :
  lookup name r = Some s -> In (name, s) r.
Proof.
  unfold lookup. destruct (find _ r) as [[n s'] |] eqn:Hfind; [|discriminate].
  intros [= <-]. apply find_some in Hfind. destruct Hfind as [Hin Heq].
  apply String.eqb_eq in Heq. simpl in Heq. subst. exact Hin.
Qed.

Lemma lookup_None (name : string) (r : list (string * Subnet)) :
  lookup name r = None <-> ~ In name (map fst r).
Proof.
  unfold lookup. induction r as [| [n s] r IH]; simpl; [tauto|].
  destruct (n =? name) eqn:E.
  - apply String.eqb_eq in E. split; [discriminate | tauto].
  - apply String.eqb_neq in E. rewrite IH. tauto.
Qed.

Lemma In_lookup (name : string) (r : list (string * Subnet)) (s : Subnet) :
  NoDup (map fst r) -> In (name, s) r -> lookup name r = Some s.
Proof.
  unfold lookup. induction r as [| [n s'] r IH]; simpl; [tauto|].
  intros Hnd [Heq | Hin]; inversion Hnd as [| ? ? Hnotin Hnd']; subst.
  - injection Heq as -> ->. rewrite String.eqb_refl. reflexivity.
  - destruct (n =? name) eqn:E; [|auto].
    apply String.eqb_eq in E. subst. exfalso. apply Hnotin.
    apply in_map_iff. exists (name, s). auto.
Qed.

Lemma In_remove_name (name : string) (r : list (string * Subnet)) (p : string * Subnet) :
  In p (remove_name name r) <-> In p r /\ fst p <> name.
Proof.
  unfold remove_name. rewrite filter_In, negb_true_iff, String.eqb_neq. tauto.
Qed.

Lemma lookup_remove_name (name : string) (r : list (string * Subnet)) :
  lookup name (remove_name name r) = None.
Proof.
  apply lookup_None. intros Hin. apply in_map_iff in Hin.
  destruct Hin as (p & Hp & Hin). apply In_remove_name in Hin. tauto.
Qed.

Lemma lookup_remove_other (name other : string) (r : list (string * Subnet)) :
  other <> name -> lookup other (remove_name name r) = lookup other r.
Proof.
  intros Hne. unfold lookup, remove_name.
  induction r as [| [n s] r IH]; simpl; [reflexivity|].
  destruct (n =? name) eqn:E1; simpl.
  - apply String.eqb_eq in E1. subst.
    destruct (name =? other) eqn:E2; [apply String.eqb_eq in E2; congruence | exact IH].
  - destruct (n =? other); [reflexivity | exact IH].
Qed.

Lemma NoDup_map_filter A B (f : A -> B) (g : A -> bool) (l : list A) :
  NoDup (map f l) -> NoDup (map f (filter g l)).
Proof.
  induction l as [| a l IH]; simpl; [auto|].
  intros Hnd. inversion Hnd as [| ? ? Hnotin Hnd']; subst.
  destruct (g a); simpl; [|auto]. constructor; [|auto].
  intros Hin. apply Hnotin. apply in_map_iff in Hin. destruct Hin as (x & Hx & Hin).
  apply filter_In in Hin. apply in_map_iff. exists x. tauto.
Qed.

Lemma NoDup_map_inj A B (f : A -> B) (l : list A) (x y : A) :
  NoDup (map f l) -> In x l -> In y l -> f x = f y -> x = y.
Proof.
  induction l as [| a l IH]; simpl; [tauto|].
  intros Hnd Hx Hy Heq. inversion Hnd as [| ? ? Hnotin Hnd']; subst.
  destruct Hx as [-> | Hx], Hy as [-> | Hy]; auto.
  - exfalso. apply Hnotin. rewrite Heq. apply in_map. exact Hy.
  - exfalso. apply Hnotin. rewrite <- Heq. apply in_map. exact Hx.
Qed.

Lemma registry_call_reliable X (fail : X) (body : World -> X * World) (w : World) :
  reliable w -> registry_call fail body w = body w.
Proof. unfold reliable, registry_call. intros ->. reflexivity. Qed.

Lemma model_GetSubnet (w : World) (name : string) :
  reliable w ->
  model (GetSubnet name) w =
  (match lookup name (registry w) with
   | Some s => Ok s
   | None => Err "subnet not found"
   end, w).
Proof.
  intros H. cbn [model]. rewrite registry_call_reliable by exact H.
  destruct (lookup name (registry w)); reflexivity.
Qed.

Lemma model_CreateSubnet (w : World) (name : string) (sub : Subnet) :
  reliable w ->
  model (CreateSubnet name sub) w = (None, set_registry w ((name, sub) :: registry w)).
Proof. intros H. cbn [model]. rewrite registry_call_reliable by exact H. reflexivity. Qed.

Lemma model_DeleteSubnet (w : World) (name : string) (s : Subnet) :
  reliable w -> lookup name (registry w) = Some s ->
  model (DeleteSubnet name) w = (None, set_registry w (remove_name name (registry w))).
Proof.
  intros H Hl. cbn [model]. rewrite registry_call_reliable by exact H.
  rewrite Hl. reflexivity.
Qed.

Lemma model_GetSubnet_up (w : World) (name : string) (o : list bool) :
  outages w = false :: o ->
  model (GetSubnet name) w =
  (match lookup name (registry w) with
   | Some s => Ok s
   | None => Err "subnet not found"
   end, set_outages w o).
Proof.
  intros H. cbn [model]. unfold registry_call. rewrite H. cbn [registry set_outages].
  destruct (lookup name (registry w)); reflexivity.
Qed.

Lemma model_DeleteSubnet_out (w : World) (name : string) (o : list bool) :
  outages w = true :: o ->
  model (DeleteSubnet name) w = (Some unavailable, set_outages w o).
Proof. intros H. cbn [model]. unfold registry_call. rewrite H. reflexivity. Qed.

Lemma model_ReleaseNetwork (w : World) (a : SubnetAllocator) (n : IPNet) :
  subnetAllocator w = Some a ->
  model (ReleaseNetwork n) w =
  (fst (alloc_ReleaseNetwork n a), set_allocator w (Some (snd (alloc_ReleaseNetwork n a)))).
Proof. intros Ha. cbn [model]. rewrite Ha. reflexivity. Qed.

Lemma pool_pairwise_disjoint (net : IPNet) (cap : N) (l : list IPNet) :
  canonical net -> (cap <= 32 - Ones net)%N ->
  NoDup l -> incl l (pool net cap) -> pairwise_disjoint l.
Proof.
  intros Hnet Hcap. unfold pairwise_disjoint.
  induction l as [| a l IH]; intros Hnd Hincl; [constructor|].
  inversion Hnd as [| ? ? Hnotin Hnd']; subst. constructor.
  - apply Forall_forall. intros b Hb.
    apply (pool_disjoint net cap Hnet Hcap); [apply Hincl; left; reflexivity | apply Hincl; right; exact Hb |].
    intros ->. tauto.
  - apply IH; [exact Hnd'|]. intros x Hx. apply Hincl. right. exact Hx.
Qed.

(** *** addNode on the reference handler *)

Lemma run_addNode_model (w : World) (a : SubnetAllocator) (name ip : string) :
  reliable w -> subnetAllocator w = Some a ->
  run model (addNode name ip) w =
  match alloc_GetNetwork a with
  | (Err e, a') => mkOutcome [Ev GetNetwork (Err e)] (set_allocator w (Some a')) (Some e)
  | (Ok sn, a') =>
      if invalid_ip ip then
        mkOutcome [Ev GetNetwork (Ok sn)] (set_allocator w (Some a'))
                  (Some "Invalid node IP")
      else
        mkOutcome [Ev GetNetwork (Ok sn);
                   Ev (CreateSubnet name (mkSubnet ip (IPNet_String sn))) None]
                  (set_registry (set_allocator w (Some a'))
                     ((name, mkSubnet ip (IPNet_String sn)) :: registry w))
                  None
  end.
Proof.
  intros Hrel Ha. unfold addNode. cbn [run model]. rewrite Ha.
  destruct (alloc_GetNetwork a) as [[sn | e] a']; cbn [fst snd]; [|reflexivity].
  fold (invalid_ip ip). destruct (invalid_ip ip); [reflexivity|].
  cbn [run]. rewrite model_CreateSubnet by exact Hrel. reflexivity.
Qed.

Lemma net_of_new_record (name ip : string) (sn : IPNet) :
  canonical sn -> net_of (name, mkSubnet ip (IPNet_String sn)) = sn.
Proof. intros H. unfold net_of. cbn [snd SubnetCIDR]. rewrite ParseCIDR_String by exact H. reflexivity. Qed.

Lemma addNode_Inv (w : World) (name ip : string) :
  Inv w -> lookup name (registry w) = None ->
  let o := run model (addNode name ip) w in
  Inv (final o) /\
  (Synced w -> invalid_ip ip = false \/ value o = None -> Synced (final o)).
Proof.
  intros (Hrel & Hnames & Hparse & Hnets & a & Ha & (Hcan & Hcap & Hpool) & Hincl) Hnone.
  cbv zeta. rewrite (run_addNode_model w a name ip Hrel Ha).
  destruct (alloc_GetNetwork a) as [[sn | e] a'] eqn:Hget.
  - apply alloc_GetNetwork_Ok in Hget. destruct Hget as (Hin & Hfree & ->).
    assert (Hsn : canonical sn) by (apply (pool_canonical _ _ Hcan Hcap); exact Hin).
    assert (Hwf : wf_allocator (mkSubnetAllocator (network a) (capacity a) (sn :: allocMap a))).
    { split; [exact Hcan|]. split; [exact Hcap|]. cbn.
      intros x [<- | Hx]; [exact Hin | apply Hpool; exact Hx]. }
    destruct (invalid_ip ip) eqn:Hip; cbn [final value].
    + split.
      * split; [exact Hrel|]. split; [exact Hnames|]. split; [exact Hparse|].
        split; [exact Hnets|]. eexists. split; [reflexivity|]. split; [exact Hwf|].
        cbn. intros x Hx. right. apply Hincl. exact Hx.
      * intros _ [? | ?]; discriminate.
    + assert (Hinv : Inv (set_registry
                            (set_allocator w
                               (Some (mkSubnetAllocator (network a) (capacity a) (sn :: allocMap a))))
                            ((name, mkSubnet ip (IPNet_String sn)) :: registry w))).
      { split; [exact Hrel|]. unfold live_nets. cbn [registry set_registry set_allocator map fst].
        rewrite (net_of_new_record name ip sn Hsn).
        split. { constructor; [apply lookup_None; exact Hnone | exact Hnames]. }
        split. { constructor; [|exact Hparse]. exists sn. apply ParseCIDR_String. exact Hsn. }
        split. { constructor; [|exact Hnets]. intros Hx. apply Hfree, Hincl. exact Hx. }
        eexists. split; [reflexivity|]. split; [exact Hwf|]. cbn.
        intros x [<- | Hx]; [left; reflexivity | right; apply Hincl; exact Hx]. }
      split; [exact Hinv|]. intros [_ Hsync] _. split; [exact Hinv|].
      unfold excluded, live_nets in *. rewrite Ha in Hsync.
      cbn [registry set_registry set_allocator map subnetAllocator allocMap].
      rewrite (net_of_new_record name ip sn Hsn).
      intros x [<- | Hx]; [left; reflexivity | right; apply Hsync; exact Hx].
  - apply alloc_GetNetwork_Err in Hget. subst a'. cbn [final value].
    assert (Hinv : Inv (set_allocator w (Some a))).
    { split; [exact Hrel|]. split; [exact Hnames|]. split; [exact Hparse|].
      split; [exact Hnets|]. exists a. split; [reflexivity|]. split; [exact (conj Hcan (conj Hcap Hpool)) | exact Hincl]. }
    split; [exact Hinv|]. intros [_ Hsync] _. split; [exact Hinv|].
    unfold excluded in *. rewrite Ha in Hsync. exact Hsync.
Qed.

(** *** Removing a node's record *)

Section RemoveName.
Variables (r : list (string * Subnet)) (name : string) (sub : Subnet).
Hypothesis Hnames : NoDup (map fst r).
Hypothesis Hnets : NoDup (map net_of r).
Hypothesis Hfound : lookup name r = Some sub.

Lemma sole_record (q : string * Subnet) : In q r -> fst q = name -> q = (name, sub).
Proof.
  intros Hq Hname. destruct q as [n s]. simpl in Hname. subst n.
  apply (In_lookup _ _ _ Hnames) in Hq. congruence.
Qed.

Lemma removed_net_gone : ~ In (net_of (name, sub)) (map net_of (remove_name name r)).
Proof.
  intros Hin. apply in_map_iff in Hin. destruct Hin as (q & Heq & Hq).
  apply In_remove_name in Hq. destruct Hq as [Hq Hne].
  apply Hne. apply lookup_In in Hfound.
  rewrite (NoDup_map_inj _ _ net_of r q (name, sub) Hnets Hq Hfound Heq). reflexivity.
Qed.

Lemma other_net_kept (m : IPNet) :
  In m (map net_of r) -> m <> net_of (name, sub) ->
  In m (map net_of (remove_name name r)).
Proof.
  intros Hin Hne. apply in_map_iff in Hin. destruct Hin as (q & <- & Hq).
  apply in_map. apply In_remove_name. split; [exact Hq|].
  intros Hname. apply Hne. rewrite (sole_record q Hq Hname). reflexivity.
Qed.

Lemma remaining_nets : incl (map net_of (remove_name name r)) (map net_of r).
Proof.
  intros m Hin. apply in_map_iff in Hin. destruct Hin as (q & <- & Hq).
  apply In_remove_name in Hq. apply in_map. tauto.
Qed.

Lemma name_gone : ~ In name (map fst (remove_name name r)).
Proof. apply lookup_None, lookup_remove_name. Qed.
End RemoveName.

(** *** deleteNode on the reference handler *)

Lemma run_deleteNode_model (w : World) (a : SubnetAllocator) (name : string) :
  reliable w -> subnetAllocator w = Some a ->
  run model (deleteNode name) w =
  match lookup name (registry w) with
  | None => mkOutcome [Ev (GetSubnet name) (Err "subnet not found")] w
                      (Some "subnet not found")
  | Some sub =>
      match ParseCIDR (SubnetCIDR sub) with
      | Err e => mkOutcome [Ev (GetSubnet name) (Ok sub)] w (Some e)
      | Ok ipnet =>
          mkOutcome [Ev (GetSubnet name) (Ok sub);
                     Ev (ReleaseNetwork ipnet) (fst (alloc_ReleaseNetwork ipnet a));
                     Ev (DeleteSubnet name) None]
                    (set_registry
                       (set_allocator w (Some (snd (alloc_ReleaseNetwork ipnet a))))
                       (remove_name name (registry w)))
                    None
      end
  end.
Proof.
  intros Hrel Ha. unfold deleteNode. cbn [run]. rewrite model_GetSubnet by exact Hrel.
  cbn [fst snd]. destruct (lookup name (registry w)) as [sub |] eqn:Hl; [|reflexivity].
  destruct (ParseCIDR (SubnetCIDR sub)) as [ipnet | e]; [|reflexivity].
  cbn [run]. rewrite (model_ReleaseNetwork w a ipnet Ha). cbn [fst snd].
  rewrite (model_DeleteSubnet _ name sub) by assumption. reflexivity.
Qed.

Lemma deleteNode_Inv (w : World) (name : string) :
  Inv w ->
  let o := run model (deleteNode name) w in
  Inv (final o) /\ (Synced w -> Synced (final o)).
Proof.
  intros Hinv. pose proof Hinv as
    (Hrel & Hnames & Hparse & Hnets & a & Ha & (Hcan & Hcap & Hpool) & Hincl).
  cbv zeta. rewrite (run_deleteNode_model w a name Hrel Ha).
  destruct (lookup name (registry w)) as [sub |] eqn:Hl; [|cbn; tauto].
  destruct (ParseCIDR (SubnetCIDR sub)) as [ipnet | e] eqn:Hp; [|cbn; tauto].
  cbn [final].
  assert (Hnet : net_of (name, sub) = ipnet) by (unfold net_of; cbn [snd]; rewrite Hp; reflexivity).
  destruct (alloc_ReleaseNetwork_spec ipnet a) as (Hn & Hc & Hmap).
  set (a' := snd (alloc_ReleaseNetwork ipnet a)) in *.
  assert (Hinv' : Inv (set_registry (set_allocator w (Some a')) (remove_name name (registry w)))).
  { split; [exact Hrel|]. unfold live_nets. cbn [registry set_registry set_allocator].
    split. { apply NoDup_map_filter. exact Hnames. }
    split. { apply Forall_forall. intros q Hq. apply In_remove_name in Hq.
             rewrite Forall_forall in Hparse. apply Hparse. tauto. }
    split. { apply NoDup_map_filter. exact Hnets. }
    exists a'. split; [reflexivity|]. split.
    - unfold wf_allocator. rewrite Hn, Hc. split; [exact Hcan|]. split; [exact Hcap|].
      intros x Hx. apply Hmap in Hx. apply Hpool. tauto.
    - intros x Hx. apply Hmap. split.
      + apply Hincl. apply (remaining_nets _ _ _ Hx).
      + intros ->. rewrite <- Hnet in Hx.
        exact (removed_net_gone _ _ _ Hnets Hl Hx). }
  split; [exact Hinv'|]. intros [_ Hsync]. split; [exact Hinv'|].
  unfold excluded, live_nets in *. rewrite Ha in Hsync.
  cbn [registry set_registry set_allocator subnetAllocator].
  intros x Hx. apply Hmap in Hx. destruct Hx as [Hx Hne].
  apply (other_net_kept _ _ _ Hnames Hl); [apply Hsync; exact Hx | congruence].
Qed.

(** *** One node event on the reference handler *)

Lemma run_same_ip_model (w : World) (name ip : string) (sub : Subnet) :
  reliable w -> lookup name (registry w) = Some sub -> NodeIP sub = ip ->
  run model (watchNodes_event (mkNodeEvent Added (mkNode name ip))) w =
  mkOutcome [Ev (GetSubnet name) (Ok sub)] w tt.
Proof.
  intros Hrel Hl Hip. unfold watchNodes_event. cbn [NType ENode Name IP run].
  rewrite model_GetSubnet by exact Hrel. rewrite Hl. cbn [fst snd].
  apply String.eqb_eq in Hip. rewrite Hip. reflexivity.
Qed.

Lemma run_changed_ip_model (w : World) (name ip : string) (sub : Subnet) :
  reliable w -> lookup name (registry w) = Some sub -> NodeIP sub <> ip ->
  run model (watchNodes_event (mkNodeEvent Added (mkNode name ip))) w =
  mkOutcome [Ev (GetSubnet name) (Ok sub);
             Ev (DeleteSubnet name) None;
             Ev (CreateSubnet name (mkSubnet ip (SubnetCIDR sub))) None]
            (set_registry w ((name, mkSubnet ip (SubnetCIDR sub))
                               :: remove_name name (registry w)))
            tt.
Proof.
  intros Hrel Hl Hip. unfold watchNodes_event. cbn [NType ENode Name IP run].
  rewrite model_GetSubnet by exact Hrel. rewrite Hl. cbn [fst snd].
  apply String.eqb_neq in Hip. rewrite Hip. cbn [negb run].
  rewrite (model_DeleteSubnet _ name sub) by assumption. cbn [fst snd run].
  rewrite model_CreateSubnet by exact Hrel. reflexivity.
Qed.

Lemma changed_ip_Inv (w : World) (name ip : string) (sub : Subnet) :
  Inv w -> lookup name (registry w) = Some sub ->
  let w' := set_registry w ((name, mkSubnet ip (SubnetCIDR sub))
                              :: remove_name name (registry w)) in
  Inv w' /\ (Synced w -> Synced w').
Proof.
  intros (Hrel & Hnames & Hparse & Hnets & a & Ha & Hwf & Hincl) Hl. cbv zeta.
  assert (Hnet : net_of (name, mkSubnet ip (SubnetCIDR sub)) = net_of (name, sub))
    by reflexivity.
  assert (Hinv : Inv (set_registry w ((name, mkSubnet ip (SubnetCIDR sub))
                                        :: remove_name name (registry w)))).
  { split; [exact Hrel|]. unfold live_nets in *. cbn [registry set_registry map fst].
    rewrite Hnet.
    split. { constructor; [apply name_gone | apply NoDup_map_filter; exact Hnames]. }
    split. { rewrite Forall_forall in Hparse. constructor.
             - apply (Hparse (name, sub)). apply lookup_In. exact Hl.
             - apply Forall_forall. intros q Hq. apply In_remove_name in Hq.
               apply Hparse. tauto. }
    split. { constructor; [exact (removed_net_gone _ _ _ Hnets Hl) |
                           apply NoDup_map_filter; exact Hnets]. }
    exists a. split; [exact Ha|]. split; [exact Hwf|].
    intros x [<- | Hx]; apply Hincl.
    - apply (in_map net_of). apply lookup_In. exact Hl.
    - apply (remaining_nets _ _ _ Hx). }
  split; [exact Hinv|]. intros [_ Hsync]. split; [exact Hinv|].
  unfold excluded, live_nets in *. cbn [registry set_registry subnetAllocator map] in *.
  rewrite Hnet. intros x Hx.
  destruct (IPNet_eqb x (net_of (name, sub))) eqn:E.
  - apply IPNet_eqb_eq in E. left. congruence.
  - right. apply (other_net_kept _ _ _ Hnames Hl); [apply Hsync; exact Hx|].
    intros ->. assert (IPNet_eqb (net_of (name, sub)) (net_of (name, sub)) = true)
      by (apply IPNet_eqb_eq; reflexivity). congruence.
Qed.

Lemma watchNodes_event_Inv (w : World) (ev : NodeEvent) :
  Inv w ->
  let o := run model (watchNodes_event ev) w in
  Inv (final o) /\ (Synced w -> valid_event ev -> Synced (final o)).
Proof.
  intros Hinv. pose proof Hinv as (Hrel & _). cbv zeta.
  destruct ev as [[|] [name ip]]; unfold valid_event; cbn [NType ENode IP].
  - destruct (lookup name (registry w)) as [sub |] eqn:Hl.
    + destruct (String.eqb_spec (NodeIP sub) ip) as [Hip | Hip].
      * rewrite (run_same_ip_model w name ip sub Hrel Hl Hip). cbn. tauto.
      * rewrite (run_changed_ip_model w name ip sub Hrel Hl Hip). cbn [final].
        destruct (changed_ip_Inv w name ip sub Hinv Hl). tauto.
    + unfold watchNodes_event. cbn [NType ENode Name IP run].
      rewrite model_GetSubnet by exact Hrel. rewrite Hl. cbn [fst snd final].
      rewrite final_bind. cbn [run final].
      destruct (addNode_Inv w name ip Hinv Hl) as [H1 H2]. split; [exact H1|].
      intros Hs Hv. apply H2; [exact Hs | left; exact Hv].
  - unfold watchNodes_event. cbn [NType ENode Name]. rewrite final_bind. cbn [run final].
    destruct (deleteNode_Inv w name Hinv). tauto.
Qed.

Lemma watchNodes_loop_Inv (evs : list NodeEvent) :
  forall w, Inv w ->
  let o := run model (watchNodes_loop (events_only evs)) w in
  Inv (final o) /\ (Synced w -> Forall valid_event evs -> Synced (final o)).
Proof.
  induction evs as [| ev evs IH]; intros w Hinv; cbv zeta.
  - cbn. tauto.
  - cbn [events_only map watchNodes_loop]. rewrite final_bind.
    destruct (watchNodes_event_Inv w ev Hinv) as [H1 H2].
    destruct (IH _ H1) as [H3 H4]. split; [exact H3|].
    intros Hs Hall. inversion Hall; subst. auto.
Qed.

Lemma master_after_Inv (w : World) (evs : list NodeEvent) :
  Inv w ->
  Inv (master_after w evs) /\
  (Synced w -> Forall valid_event evs -> Synced (master_after w evs)).
Proof.
  intros Hinv. unfold master_after, watchNodes. cbn [run final model fst snd].
  apply watchNodes_loop_Inv. exact Hinv.
Qed.

Lemma Inv_disjoint (w : World) :
  Inv w ->
  Forall parses (registry w) /\ pairwise_disjoint (live_nets w) /\
  incl (live_nets w) (excluded w).
Proof.
  intros (Hrel & Hnames & Hparse & Hnets & a & Ha & (Hcan & Hcap & Hpool) & Hincl).
  split; [exact Hparse|]. split.
  - apply (pool_pairwise_disjoint (network a) (capacity a)); try assumption.
    intros x Hx. apply Hpool, Hincl. exact Hx.
  - unfold excluded. rewrite Ha. exact Hincl.
Qed.

(** *** Start-up of the master *)

Lemma parse_octet_le (s : string) (v : N) : parse_octet s = Some v -> (v <= 255)%N.
Proof.
  unfold parse_octet. destruct (parse_dec s) as [n |]; [|discriminate].
  destruct (n <=? 255)%N eqn:E; [|discriminate]. intros [= <-]. apply N.leb_le. exact E.
Qed.

Lemma parse_ipv4_lt (s : string) (addr : N) : parse_ipv4 s = Some addr -> (addr < 2 ^ 32)%N.
Proof.
  unfold parse_ipv4.
  destruct (cut "." s) as [[a s1] |]; [|discriminate].
  destruct (cut "." s1) as [[b s2] |]; [|discriminate].
  destruct (cut "." s2) as [[c d] |]; [|discriminate].
  destruct (parse_octet a) as [va |] eqn:Ea; [|discriminate].
  destruct (parse_octet b) as [vb |] eqn:Eb; [|discriminate].
  destruct (parse_octet c) as [vc |] eqn:Ec; [|discriminate].
  destruct (parse_octet d) as [vd |] eqn:Ed; [|discriminate].
  apply parse_octet_le in Ea, Eb, Ec, Ed. intros [= <-].
  change (2 ^ 32)%N with 4294967296%N. lia.
Qed.

Lemma ParseCIDR_canonical (s : string) (n : IPNet) : ParseCIDR s = Ok n -> canonical n.
Proof.
  unfold ParseCIDR. destruct (cut "/" s) as [[a m] |]; [|discriminate].
  destruct (parse_ipv4 a) as [addr |] eqn:Ea; [|discriminate].
  destruct (parse_dec m) as [ones |]; [|discriminate].
  destruct (ones <=? 32)%N eqn:E; [|discriminate]. intros [= <-].
  apply N.leb_le in E. apply parse_ipv4_lt in Ea.
  unfold canonical. cbn [Ones Addr]. split; [exact E|].
  rewrite !mask_addr_div.
  assert (Hnz : (2 ^ (32 - ones) <> 0)%N) by (apply N.pow_nonzero; discriminate).
  split.
  - apply N.le_lt_trans with addr; [|exact Ea].
    rewrite N.mul_comm. apply N.Div0.mul_div_le.
  - rewrite N.div_mul by exact Hnz. reflexivity.
Qed.

Lemma seed_spec (net : IPNet) (cap : N) (r : list (string * Subnet)) :
  forall l, seed net cap (map SubnetCIDR (map snd r)) = Some l ->
  l = map net_of r /\ Forall parses r /\ NoDup l /\ incl l (pool net cap).
Proof.
  induction r as [| p r IH]; intros l; cbn [map seed].
  - intros [= <-]. split; [reflexivity|]. split; [constructor|].
    split; [constructor | intros x []].
  - destruct (ParseCIDR (SubnetCIDR (snd p))) as [n | e] eqn:Hp; [|discriminate].
    destruct (seed net cap (map SubnetCIDR (map snd r))) as [l' |]; [|discriminate].
    destruct (inUse n (pool net cap) && negb (inUse n l')) eqn:E; [|discriminate].
    intros [= <-]. apply andb_true_iff in E. destruct E as [Hin Hfresh].
    apply inUse_In in Hin. apply negb_true_iff, inUse_not_In in Hfresh.
    destruct (IH l' eq_refl) as (-> & Hparse & Hnd & Hincl).
    split; [cbn [map]; f_equal; unfold net_of; rewrite Hp; reflexivity|].
    split; [constructor; [exists n; exact Hp | exact Hparse]|].
    split; [constructor; assumption|].
    intros x [<- | Hx]; [exact Hin | apply Hincl; exact Hx].
Qed.

Lemma alloc_New_Synced (w : World) (cn : string) (cap : N) (a : SubnetAllocator) :
  reliable w -> NoDup (map fst (registry w)) ->
  alloc_New cn cap (map SubnetCIDR (map snd (registry w))) = Ok a ->
  Synced (set_allocator w (Some a)).
Proof.
  intros Hrel Hnames. unfold alloc_New.
  destruct (ParseCIDR cn) as [net | e] eqn:Hcn; [|discriminate].
  destruct (cap <=? 32 - Ones net)%N eqn:Hcap; [|discriminate].
  destruct (seed net cap _) as [l |] eqn:Hseed; [|discriminate].
  intros [= <-]. apply seed_spec in Hseed. destruct Hseed as (-> & Hparse & Hnd & Hincl).
  apply N.leb_le in Hcap. apply ParseCIDR_canonical in Hcn.
  split.
  - split; [exact Hrel|]. split; [exact Hnames|]. split; [exact Hparse|].
    split; [exact Hnd|]. eexists. split; [reflexivity|].
    split; [exact (conj Hcn (conj Hcap Hincl))|]. apply incl_refl.
  - apply incl_refl.
Qed.

Lemma serveExistingNodes_Synced (nodes : list Node) :
  forall w, Synced w ->
  value (run model (serveExistingNodes nodes) w) = None ->
  Synced (final (run model (serveExistingNodes nodes) w)).
Proof.
  induction nodes as [| node rest IH]; intros w Hs; [intros _; exact Hs|].
  pose proof Hs as [Hinv _]. pose proof Hinv as (Hrel & _).
  cbn [serveExistingNodes run]. rewrite model_GetSubnet by exact Hrel. cbn [fst snd value final].
  destruct (lookup (Name node) (registry w)) as [sub |] eqn:Hl.
  - apply IH. exact Hs.
  - rewrite value_bind, final_bind.
    destruct (addNode_Inv w (Name node) (IP node) Hinv Hl) as [_ H2].
    destruct (value (run model (addNode (Name node) (IP node)) w)) as [e |] eqn:Hv.
    + cbn. discriminate.
    + apply IH. apply H2; [exact Hs | right; reflexivity].
Qed.

Lemma subnetStartMaster_Synced (w : World) :
  reliable w -> NoDup (map fst (registry w)) ->
  value (run model subnetStartMaster w) = None ->
  Synced (final (run model subnetStartMaster w)).
Proof.
  intros Hrel Hnames. unfold subnetStartMaster. cbn [run model].
  rewrite !registry_call_reliable by exact Hrel. cbn [fst snd run model value final].
  rewrite !registry_call_reliable by exact Hrel. cbn [fst snd run model value final].
  rewrite !registry_call_reliable by exact Hrel. cbn [fst snd run model value final].
  destruct (alloc_New (clusterNetworkCIDR w) (uint (hostSubnetLength w))
              (map SubnetCIDR (map snd (registry w)))) as [a | e] eqn:Hnew;
    cbn [fst snd run model value final]; [|discriminate].
  rewrite !registry_call_reliable by exact Hrel. cbn [fst snd run model value final].
  apply serveExistingNodes_Synced.
  apply (alloc_New_Synced w _ _ a Hrel Hnames Hnew).
Qed.

(** *** The master's invariants *)

(** C1 as the spec states it fails, in two ways.  After a start-up that
    leaves registry and allocator in agreement, one Added event for a node
    reporting 127.0.0.1 leaves the allocator with a network in its exclusion
    set that no Subnet record holds.  And when the registry is out at the
    DeleteSubnet of a leaving node, the network is released while its record
    stays, so the next node that joins is given the same network: two live
    Subnets overlap. *)
Lemma sync_breaks :
  value (run model subnetStartMaster w0) = None /\
  disjoint_and_synced w1 /\
  ~ disjoint_and_synced (master_after w1 loopback_joins) /\
  ~ pairwise_disjoint (live_nets (master_after w1_delete_outage leave_then_join)).
Proof.
  split; [vm_compute; reflexivity|]. split.
  { assert (Hs : Synced w1).
    { apply subnetStartMaster_Synced;
        [reflexivity | simpl; constructor | vm_compute; reflexivity]. }
    destruct (Inv_disjoint w1 (proj1 Hs)) as (H1 & H2 & H3).
    exact (conj H1 (conj H2 (conj H3 (proj2 Hs)))). }
  split.
  - intros (_ & _ & _ & Hback).
    specialize (Hback (mkIPNet 167838208 24)).
    assert (Hin : In (mkIPNet 167838208 24) (excluded (master_after w1 loopback_joins)))
      by (vm_compute; left; reflexivity).
    apply Hback in Hin. vm_compute in Hin.
    destruct Hin as [H | [H | []]]; discriminate H.
  - assert (Hnets : live_nets (master_after w1_delete_outage leave_then_join)
                    = [mkIPNet 167837696 24; mkIPNet 167837952 24; mkIPNet 167837696 24])
      by (vm_compute; reflexivity).
    rewrite Hnets. unfold pairwise_disjoint. intros H.
    inversion H as [| a l Hall _]; subst.
    rewrite Forall_forall in Hall.
    specialize (Hall (mkIPNet 167837696 24) ltac:(right; left; reflexivity)).
    vm_compute in Hall. discriminate Hall.
Qed.

(** C1, amended.  On a registry without transient failures and with one
    record per node name, once the master has started (the allocator seeded
    from every existing Subnet's CIDR, the sweep done), after every sequence
    of Added/Deleted node events: every live CIDR is a network, the live
    networks are pairwise disjoint, and each of them is in the allocator's
    exclusion set; when the Added events all carry an address addNode
    accepts, the exclusion set holds nothing else. *)
Theorem master_keeps_subnets_disjoint (w : World) (evs : list NodeEvent) :
  reliable w ->
  NoDup (map fst (registry w)) ->
  value (run model subnetStartMaster w) = None ->
  let w' := master_after (final (run model subnetStartMaster w)) evs in
  Forall parses (registry w') /\
  pairwise_disjoint (live_nets w') /\
  incl (live_nets w') (excluded w') /\
  (Forall valid_event evs -> incl (excluded w') (live_nets w')).
Proof.
  intros Hrel Hnames Hstart. cbv zeta.
  pose proof (subnetStartMaster_Synced w Hrel Hnames Hstart) as Hs.
  destruct (master_after_Inv _ evs (proj1 Hs)) as [Hinv Hsync].
  destruct (Inv_disjoint _ Hinv) as (H1 & H2 & H3).
  split; [exact H1|]. split; [exact H2|]. split; [exact H3|].
  intros Hall. exact (proj2 (Hsync Hs Hall)).
Qed.

Lemma master_keeps_subnets_disjoint_witness :
  let w' := master_after (final (run model subnetStartMaster w0)) busy_day in
  Forall parses (registry w') /\
  pairwise_disjoint (live_nets w') /\
  incl (live_nets w') (excluded w') /\
  (Forall valid_event busy_day -> incl (excluded w') (live_nets w')).
Proof.
  apply (master_keeps_subnets_disjoint w0 busy_day).
  - reflexivity.
  - simpl. constructor.
  - vm_compute. reflexivity.
Defined.

(** For every behaviour of the collaborators: when the lookup returns a Subnet
    with the event's IP, the Added handler calls nothing else. *)
Lemma same_ip_is_noop W (h : Handler W) (w : W) (name ip : string) (sub : Subnet) :
  fst (h (GetSubnet name) w) = Ok sub -> NodeIP sub = ip ->
  let o := run h (watchNodes_event (mkNodeEvent Added (mkNode name ip))) w in
  events o = [Ev (GetSubnet name) (Ok sub)] /\ final o = snd (h (GetSubnet name) w).
Proof.
  intros Hget Hip. cbv zeta. unfold watchNodes_event. cbn [NType ENode Name IP run].
  destruct (h (GetSubnet name) w) as [r w1]. cbn [fst snd] in *. subst r.
  apply String.eqb_eq in Hip. rewrite Hip. cbn. split; reflexivity.
Qed.

(** C3 as the spec states it fails: node n1 holds a Subnet with the IP the
    Added event carries, the registry is out at the lookup, and the master
    takes the error for "no subnet": it asks the allocator for a network and
    writes a second record for n1. *)
Lemma lookup_outage_adds_second_record :
  let ev := mkNodeEvent Added (mkNode "n1" "192.168.0.1") in
  let o := run model (watchNodes_event ev) w1_outage in
  NoDup (map fst (registry w1_outage)) /\
  lookup "n1" (registry w1_outage) = Some (mkSubnet "192.168.0.1" "10.1.0.0/24") /\
  calls o = [GetSubnet "n1"; GetNetwork;
             CreateSubnet "n1" (mkSubnet "192.168.0.1" "10.1.2.0/24")] /\
  map fst (registry (final o)) = ["n1"; "n2"; "n1"] /\
  excluded (final o) = mkIPNet 167838208 24 :: excluded w1_outage /\
  ~ one_record_and_replay_is_noop w1_outage.
Proof.
  cbv zeta.
  assert (Hnames : map fst (registry w1_outage) = ["n2"; "n1"]) by (vm_compute; reflexivity).
  split.
  { rewrite Hnames. constructor; [intros [H | []]; discriminate H|].
    constructor; [intros [] | constructor]. }
  split; [vm_compute; reflexivity|]. split; [vm_compute; reflexivity|].
  split; [vm_compute; reflexivity|]. split; [vm_compute; reflexivity|].
  intros [_ H].
  specialize (H "n1" (mkSubnet "192.168.0.1" "10.1.0.0/24") ltac:(vm_compute; reflexivity)).
  destruct H as (Hreg & _). vm_compute in Hreg. discriminate Hreg.
Qed.

(** C3, amended.  On a registry without transient failures and with one
    record per node name, once the master has started, after every sequence
    of node events no node name has two live Subnet records; and an Added
    event for a node whose Subnet exists with the event's IP makes one lookup
    and leaves registry, allocator and everything else as they were. *)
Theorem one_subnet_per_node (w : World) (evs : list NodeEvent) :
  reliable w ->
  NoDup (map fst (registry w)) ->
  value (run model subnetStartMaster w) = None ->
  let w' := master_after (final (run model subnetStartMaster w)) evs in
  NoDup (map fst (registry w')) /\
  forall name sub,
    lookup name (registry w') = Some sub ->
    let o := run model (watchNodes_event (mkNodeEvent Added (mkNode name (NodeIP sub)))) w' in
    calls o = [GetSubnet name] /\ final o = w'.
Proof.
  intros Hrel Hnames Hstart. cbv zeta.
  pose proof (subnetStartMaster_Synced w Hrel Hnames Hstart) as Hs.
  destruct (master_after_Inv _ evs (proj1 Hs)) as [(Hrel' & Hnames' & _) _].
  split; [exact Hnames'|]. intros name sub Hl.
  rewrite (run_same_ip_model _ name (NodeIP sub) sub Hrel' Hl eq_refl).
  split; reflexivity.
Qed.

Lemma one_subnet_per_node_witness :
  let w' := master_after (final (run model subnetStartMaster w0)) busy_day in
  NoDup (map fst (registry w')) /\
  forall name sub,
    lookup name (registry w') = Some sub ->
    let o := run model (watchNodes_event (mkNodeEvent Added (mkNode name (NodeIP sub)))) w' in
    calls o = [GetSubnet name] /\ final o = w'.
Proof.
  apply (one_subnet_per_node w0 busy_day).
  - reflexivity.
  - simpl. constructor.
  - vm_compute. reflexivity.
Defined.

(** *** The initial sweep *)

Lemma addNode_effect (w : World) (name ip : string) :
  reliable w ->
  let o := run model (addNode name ip) w in
  reliable (final o) /\
  ((value o = None /\
    exists sub, calls o = [GetNetwork; CreateSubnet name sub] /\
                registry (final o) = (name, sub) :: registry w)
   \/ (value o <> None /\ calls o = [GetNetwork] /\ registry (final o) = registry w)).
Proof.
  intros Hrel. cbv zeta. destruct (subnetAllocator w) as [a |] eqn:Ha.
  - rewrite (run_addNode_model w a name ip Hrel Ha).
    destruct (alloc_GetNetwork a) as [[sn | e] a'].
    + destruct (invalid_ip ip); cbn.
      * split; [exact Hrel|]. right. repeat split; discriminate.
      * split; [exact Hrel|]. left. split; [reflexivity|]. eexists. split; reflexivity.
    + cbn. split; [exact Hrel|]. right. repeat split; discriminate.
  - unfold addNode. cbn [run model]. rewrite Ha. cbn.
    split; [exact Hrel|]. right. repeat split; discriminate.
Qed.

Lemma lookup_cons (name other : string) (sub : Subnet) (r : list (string * Subnet)) :
  lookup other ((name, sub) :: r) = if name =? other then Some sub else lookup other r.
Proof. unfold lookup. cbn [find fst snd]. destruct (name =? other); reflexivity. Qed.

Lemma sweep_creates (nodes : list Node) (w : World) :
  reliable w ->
  let o := run model (serveExistingNodes nodes) w in
  (forall name sub, In (CreateSubnet name sub) (calls o) ->
     lookup name (registry w) = None /\ exists node, In node nodes /\ Name node = name)
  /\ (forall name s, lookup name (registry w) = Some s ->
        lookup name (registry (final o)) = Some s)
  /\ (value o = None ->
      forall node, In node nodes -> lookup (Name node) (registry w) = None ->
      allocated_for (Name node) (calls o)).
Proof.
  revert w. induction nodes as [| node rest IH]; intros w Hrel; cbv zeta.
  - cbn. split; [intros ? ? []|]. split; [auto|]. intros _ ? [].
  - cbn [serveExistingNodes]. unfold calls in *. cbn [run events final value map ev_call].
    rewrite model_GetSubnet by exact Hrel. cbn [fst snd].
    destruct (lookup (Name node) (registry w)) as [s0 |] eqn:Hl.
    + destruct (IH w Hrel) as (H1 & H2 & H3). split; [|split].
      * intros name sub [Hc | Hc]; [discriminate|].
        destruct (H1 name sub Hc) as (Hn & n' & Hin & Heq).
        split; [exact Hn|]. exists n'. split; [right; exact Hin | exact Heq].
      * exact H2.
      * intros Hv n' [<- | Hin] Hn; [congruence|].
        destruct (H3 Hv n' Hin Hn) as (sub & Hc). exists sub. right. exact Hc.
    + rewrite run_bind. cbn [events final value].
      destruct (addNode_effect w (Name node) (IP node) Hrel)
        as (Hrel' & [(Hv & sub & Hcalls & Hreg) | (Hv & Hcalls & Hreg)]);
        unfold calls in Hcalls.
      * rewrite Hv. rewrite map_app, Hcalls.
        set (w' := final (run model (addNode (Name node) (IP node)) w)) in *.
        destruct (IH w' Hrel') as (H1 & H2 & H3). split; [|split].
        -- intros name sub' [Hc | [Hc | [Hc | Hc]]]; try discriminate.
           ++ injection Hc as <- <-. split; [exact Hl|]. exists node. split; [left|]; reflexivity.
           ++ destruct (H1 name sub' Hc) as (Hn & n' & Hin & Heq).
              rewrite Hreg, lookup_cons in Hn.
              destruct (Name node =? name); [discriminate|].
              split; [exact Hn|]. exists n'. split; [right; exact Hin | exact Heq].
        -- intros name s Hs. apply H2. rewrite Hreg, lookup_cons.
           destruct (String.eqb_spec (Name node) name) as [<- | _]; [congruence | exact Hs].
        -- intros Hv' n' [<- | Hin] Hn.
           ++ exists sub. right. right. left. reflexivity.
           ++ destruct (String.eqb_spec (Name node) (Name n')) as [Heq | Hne].
              ** exists sub. right. right. left. rewrite Heq. reflexivity.
              ** assert (Hn' : lookup (Name n') (registry w') = None).
                 { rewrite Hreg, lookup_cons. apply String.eqb_neq in Hne.
                   rewrite Hne. exact Hn. }
                 destruct (H3 Hv' n' Hin Hn') as (sub' & Hc).
                 exists sub'. right. right. right. exact Hc.
      * destruct (value (run model (addNode (Name node) (IP node)) w)) as [e |] eqn:Hv';
          [|congruence].
        cbn [run events final value]. rewrite app_nil_r, Hcalls, Hreg.
        split; [|split].
        -- intros name sub [Hc | [Hc | []]]; discriminate.
        -- auto.
        -- discriminate.
Qed.

Lemma sweep_of_covered_nodes (nodes : list Node) (w : World) :
  reliable w ->
  (forall node, In node nodes -> lookup (Name node) (registry w) <> None) ->
  let o := run model (serveExistingNodes nodes) w in
  calls o = map (fun node => GetSubnet (Name node)) nodes /\ final o = w /\ value o = None.
Proof.
  intros Hrel. cbv zeta. unfold calls.
  induction nodes as [| node rest IH]; intros Hcov; [cbn; auto|].
  cbn [serveExistingNodes run events final value map ev_call].
  rewrite model_GetSubnet by exact Hrel. cbn [fst snd].
  destruct (lookup (Name node) (registry w)) as [s |] eqn:Hl.
  - destruct IH as (H1 & H2 & H3); [intros n Hn; apply Hcov; right; exact Hn|].
    rewrite H1. auto.
  - exfalso. apply (Hcov node); [left; reflexivity | exact Hl].
Qed.

(** C7 as the spec states it fails: the first node of the sweep has no
    address yet, addNode rejects it, the sweep stops, and the second node,
    which has no Subnet record either, gets none. *)
Lemma sweep_stops_at_first_error :
  value (run model (serveExistingNodes early_nodes) w_seeded) = Some "Invalid node IP" /\
  calls (run model (serveExistingNodes early_nodes) w_seeded) = [GetSubnet "n1"; GetNetwork] /\
  ~ sweep_iff w_seeded early_nodes.
Proof.
  split; [vm_compute; reflexivity|]. split; [vm_compute; reflexivity|].
  intros H. specialize (H (mkNode "n2" "192.168.0.2") ltac:(right; left; reflexivity)).
  destruct H as [_ H]. destruct (H eq_refl) as (sub & Hin).
  vm_compute in Hin. destruct Hin as [Hin | [Hin | []]]; discriminate Hin.
Qed.

Lemma sweep_allocations (nodes : list Node) :
  forall w, reliable w ->
  forall i,
    nth_error (calls (run model (serveExistingNodes nodes) w)) i = Some GetNetwork ->
    exists j name e,
      i = S j /\
      nth_error (events (run model (serveExistingNodes nodes) w)) j
      = Some (Ev (GetSubnet name) (Err e)) /\
      lookup name (registry w) = None /\
      exists node, In node nodes /\ Name node = name.
Proof.
  unfold calls.
  induction nodes as [| node rest IH]; intros w Hrel i Hi.
  - destruct i; discriminate Hi.
  - revert Hi. cbn [serveExistingNodes run events map ev_call].
    rewrite model_GetSubnet by exact Hrel. cbn [fst snd].
    destruct (lookup (Name node) (registry w)) as [s |] eqn:Hl.
    + intros Hi. destruct i as [| i]; [discriminate Hi|]. cbn [nth_error] in Hi.
      destruct (IH w Hrel i Hi) as (j & name & e & -> & Hj & Hn & n' & Hin & Heq).
      exists (S j), name, e. split; [reflexivity|]. split; [exact Hj|].
      split; [exact Hn|]. exists n'. split; [right; exact Hin | exact Heq].
    + rewrite events_bind.
      destruct (addNode_effect w (Name node) (IP node) Hrel)
        as (Hrel' & [(Hv & sub & Hcalls & Hreg) | (Hv & Hcalls & Hreg)]);
        unfold calls in Hcalls.
      * rewrite Hv.
        destruct (events (run model (addNode (Name node) (IP node)) w))
          as [| x [| y [| z l]]]; try discriminate Hcalls.
        injection Hcalls as Hx Hy.
        set (w' := final (run model (addNode (Name node) (IP node)) w)) in *.
        cbn [app map ev_call]. intros Hi.
        destruct i as [| [| [| i]]]; cbn [nth_error] in Hi.
        -- discriminate Hi.
        -- exists 0, (Name node), "subnet not found". split; [reflexivity|].
           split; [reflexivity|]. split; [exact Hl|].
           exists node. split; [left|]; reflexivity.
        -- rewrite Hy in Hi. discriminate Hi.
        -- destruct (IH w' Hrel' i Hi) as (j & name & e & -> & Hj & Hn & n' & Hin & Heq).
           exists (S (S (S j))), name, e. split; [reflexivity|]. split; [exact Hj|].
           split.
           ++ rewrite Hreg, lookup_cons in Hn.
              destruct (Name node =? name); [discriminate Hn | exact Hn].
           ++ exists n'. split; [right; exact Hin | exact Heq].
      * destruct (value (run model (addNode (Name node) (IP node)) w)) as [e0 |];
          [|congruence].
        destruct (events (run model (addNode (Name node) (IP node)) w))
          as [| x [| y l]]; try discriminate Hcalls.
        cbn [run events app map ev_call]. intros Hi.
        destruct i as [| [| i]]; cbn [nth_error] in Hi.
        -- discriminate Hi.
        -- exists 0, (Name node), "subnet not found". split; [reflexivity|].
           split; [reflexivity|]. split; [exact Hl|].
           exists node. split; [left|]; reflexivity.
        -- destruct i; discriminate Hi.
Qed.

Lemma sweep_ends_at_error (nodes : list Node) :
  forall w, reliable w ->
  value (run model (serveExistingNodes nodes) w) <> None ->
  exists pre, calls (run model (serveExistingNodes nodes) w) = pre ++ [GetNetwork].
Proof.
  unfold calls.
  induction nodes as [| node rest IH]; intros w Hrel; [cbn; congruence|].
  cbn [serveExistingNodes run events value map ev_call].
  rewrite model_GetSubnet by exact Hrel. cbn [fst snd].
  destruct (lookup (Name node) (registry w)) as [s |] eqn:Hl.
  - intros Hv. destruct (IH w Hrel Hv) as (pre & Hpre).
    exists (GetSubnet (Name node) :: pre). rewrite Hpre. reflexivity.
  - rewrite events_bind, value_bind.
    destruct (addNode_effect w (Name node) (IP node) Hrel)
      as (Hrel' & [(Hv0 & sub & Hcalls & _) | (Hv0 & Hcalls & _)]);
      unfold calls in Hcalls.
    + rewrite Hv0. intros Hv. destruct (IH _ Hrel' Hv) as (pre & Hpre).
      exists (GetSubnet (Name node) :: GetNetwork :: CreateSubnet (Name node) sub :: pre).
      rewrite map_app, Hcalls, Hpre. reflexivity.
    + destruct (value (run model (addNode (Name node) (IP node)) w)) as [e0 |];
        [|congruence].
      intros _. exists [GetSubnet (Name node)].
      cbn [run events]. rewrite app_nil_r, Hcalls. reflexivity.
Qed.

(** C7, amended.  On a registry without transient failures the sweep creates
    a Subnet only for an enumerated node that had no Subnet record, nodes
    that had one keep it, and when the sweep ends without error every
    enumerated node that had no record got one.  The allocator is asked for
    a network only right after the lookup of an enumerated node failed, and
    that node had no record: a node that has a record causes no allocator
    call, in any list.  When the sweep ends with an error, the failed request
    is the last thing it did.  When every enumerated node has a record the
    sweep only looks the nodes up and changes nothing. *)
Theorem sweep_allocates_only_for_uncovered (w : World) (nodes : list Node) :
  reliable w ->
  let o := run model (serveExistingNodes nodes) w in
  (forall name sub, In (CreateSubnet name sub) (calls o) ->
     lookup name (registry w) = None /\ exists node, In node nodes /\ Name node = name)
  /\ (forall name s, lookup name (registry w) = Some s ->
        lookup name (registry (final o)) = Some s)
  /\ (value o = None ->
      forall node, In node nodes -> lookup (Name node) (registry w) = None ->
      allocated_for (Name node) (calls o))
  /\ ((forall node, In node nodes -> lookup (Name node) (registry w) <> None) ->
      calls o = map (fun node => GetSubnet (Name node)) nodes /\ final o = w)
  /\ (forall i, nth_error (calls o) i = Some GetNetwork ->
      exists j name e,
        i = S j /\
        nth_error (events o) j = Some (Ev (GetSubnet name) (Err e)) /\
        lookup name (registry w) = None /\
        exists node, In node nodes /\ Name node = name)
  /\ (value o <> None -> exists pre, calls o = pre ++ [GetNetwork]).
Proof.
  intros Hrel. cbv zeta.
  destruct (sweep_creates nodes w Hrel) as (H1 & H2 & H3).
  split; [exact H1|]. split; [exact H2|]. split; [exact H3|].
  split.
  { intros Hcov. destruct (sweep_of_covered_nodes nodes w Hrel Hcov) as (H4 & H5 & _).
    split; assumption. }
  split; [apply sweep_allocations; exact Hrel | apply sweep_ends_at_error; exact Hrel].
Qed.

Lemma sweep_allocates_only_for_uncovered_witness :
  let o := run model (serveExistingNodes mixed_nodes) w1 in
  (lookup "n1" (registry w1) <> None /\ lookup "n2" (registry w1) <> None /\
   lookup "n3" (registry w1) = None)
  /\ calls o = [GetSubnet "n1"; GetSubnet "n3"; GetNetwork;
                CreateSubnet "n3" (mkSubnet "192.168.0.3" "10.1.2.0/24");
                GetSubnet "n2"]
  /\ (forall name sub, In (CreateSubnet name sub) (calls o) ->
        lookup name (registry w1) = None /\
        exists node, In node mixed_nodes /\ Name node = name)
  /\ (forall name s, lookup name (registry w1) = Some s ->
        lookup name (registry (final o)) = Some s)
  /\ (value o = None ->
      forall node, In node mixed_nodes -> lookup (Name node) (registry w1) = None ->
      allocated_for (Name node) (calls o))
  /\ ((forall node, In node mixed_nodes -> lookup (Name node) (registry w1) <> None) ->
      calls o = map (fun node => GetSubnet (Name node)) mixed_nodes /\ final o = w1)
  /\ (forall i, nth_error (calls o) i = Some GetNetwork ->
      exists j name e,
        i = S j /\
        nth_error (events o) j = Some (Ev (GetSubnet name) (Err e)) /\
        lookup name (registry w1) = None /\
        exists node, In node mixed_nodes /\ Name node = name)
  /\ (value o <> None -> exists pre, calls o = pre ++ [GetNetwork]).
Proof.
  split; [vm_compute; repeat split; discriminate|].
  split; [vm_compute; reflexivity|].
  apply (sweep_allocates_only_for_uncovered w1 mixed_nodes).
  reflexivity.
Defined.

(** *** addNode and the address check *)

Lemma addNode_invalid_ip_steps W (h : Handler W) (w : W) (name ip : string) :
  invalid_ip ip = true ->
  let o := run h (addNode name ip) w in
  events o = [Ev GetNetwork (fst (h GetNetwork w))] /\
  final o = snd (h GetNetwork w) /\
  value o <> None.
Proof.
  intros Hip. cbv zeta. unfold addNode. cbn [run]. fold (invalid_ip ip). rewrite Hip.
  destruct (h GetNetwork w) as [[sn | e] w']; cbn; repeat split; discriminate.
Qed.

(** C2 fails on the code: addNode asks the allocator for a network before
    it looks at the address.  With "127.0.0.1" and with the empty address it
    returns "Invalid node IP" and writes no Subnet record, but the network
    10.1.0.0/24 has entered the allocator's exclusion set. *)
Theorem addNode_invalid_ip_takes_network :
  let o1 := run model (addNode "n2" "127.0.0.1") w_seeded in
  let o2 := run model (addNode "n2" "") w_seeded in
  (value o1 = Some "Invalid node IP" /\ value o2 = Some "Invalid node IP") /\
  (registry (final o1) = registry w_seeded /\ registry (final o2) = registry w_seeded) /\
  (calls o1 = [GetNetwork] /\ calls o2 = [GetNetwork]) /\
  excluded w_seeded = [] /\
  excluded (final o1) = [mkIPNet 167837696 24] /\
  excluded (final o2) = [mkIPNet 167837696 24] /\
  IPNet_String (mkIPNet 167837696 24) = "10.1.0.0/24".
Proof. vm_compute. repeat split. Qed.

(** *** An Added event for a node whose address changed *)

(** C4, for every behaviour of the collaborators.  When the lookup returns a
    Subnet whose NodeIP differs from the event's IP, the master calls
    DeleteSubnet for the node; if that fails it calls nothing more, so the
    record is as the failed delete left it; otherwise it calls CreateSubnet
    with the event's IP and the CIDR of the Subnet it looked up.  Either way
    the loop goes on with the next delivery. *)
Theorem changed_ip_keeps_cidr W (h : Handler W) (w : W) (name ip : string)
    (sub : Subnet) (inbox : list (Recv NodeEvent)) :
  fst (h (GetSubnet name) w) = Ok sub ->
  NodeIP sub <> ip ->
  let ev := mkNodeEvent Added (mkNode name ip) in
  let o := run h (watchNodes_event ev) w in
  let del := h (DeleteSubnet name) (snd (h (GetSubnet name) w)) in
  let new := mkSubnet ip (SubnetCIDR sub) in
  let cre := h (CreateSubnet name new) (snd del) in
  match fst del with
  | Some e =>
      events o = [Ev (GetSubnet name) (Ok sub); Ev (DeleteSubnet name) (Some e)] /\
      final o = snd del
  | None =>
      events o = [Ev (GetSubnet name) (Ok sub); Ev (DeleteSubnet name) None;
                  Ev (CreateSubnet name new) (fst cre)] /\
      final o = snd cre
  end
  /\ run h (watchNodes_loop (RecvEvent ev :: inbox)) w =
     mkOutcome (events o ++ events (run h (watchNodes_loop inbox) (final o)))
               (final (run h (watchNodes_loop inbox) (final o)))
               (value (run h (watchNodes_loop inbox) (final o))).
Proof.
  intros Hget Hip. cbv zeta. split.
  - unfold watchNodes_event. cbn [NType ENode Name IP run].
    destruct (h (GetSubnet name) w) as [r w1]. cbn [fst snd] in *. subst r.
    apply String.eqb_neq in Hip. rewrite Hip. cbn [negb run].
    destruct (h (DeleteSubnet name) w1) as [[e |] w2]; cbn [fst snd run events final].
    + split; reflexivity.
    + destruct (h (CreateSubnet name (mkSubnet ip (SubnetCIDR sub))) w2) as [[e |] w3];
        cbn; split; reflexivity.
  - cbn [watchNodes_loop]. rewrite run_bind.
    destruct (value (run h (watchNodes_event (mkNodeEvent Added (mkNode name ip))) w)).
    reflexivity.
Qed.

Lemma changed_ip_keeps_cidr_witness :
  let ev := mkNodeEvent Added (mkNode "n1" "2.2.2.2") in
  let o := run model (watchNodes_event ev) w_n1 in
  (events o = [Ev (GetSubnet "n1") (Ok (mkSubnet "1.1.1.1" "10.1.5.0/24"));
               Ev (DeleteSubnet "n1") None;
               Ev (CreateSubnet "n1" (mkSubnet "2.2.2.2" "10.1.5.0/24")) None] /\
   final o = set_registry w_n1 [("n1", mkSubnet "2.2.2.2" "10.1.5.0/24")])
  /\ run model (watchNodes_loop [RecvEvent ev]) w_n1 =
     mkOutcome (events o ++ []) (final o) Waiting.
Proof.
  exact (changed_ip_keeps_cidr World model w_n1 "n1" "2.2.2.2"
           (mkSubnet "1.1.1.1" "10.1.5.0/24") []
           eq_refl ltac:(discriminate)).
Defined.

(** On the reference handler: the record ends with the new IP and the CIDR
    it had, the other records and the allocator are untouched; and when the
    registry is out at the delete, nothing changes. *)
Lemma changed_ip_on_model (w : World) (name ip : string) (sub : Subnet) :
  lookup name (registry w) = Some sub -> NodeIP sub <> ip ->
  let o := run model (watchNodes_event (mkNodeEvent Added (mkNode name ip))) w in
  (reliable w ->
   lookup name (registry (final o)) = Some (mkSubnet ip (SubnetCIDR sub)) /\
   (forall other, other <> name ->
      lookup other (registry (final o)) = lookup other (registry w)) /\
   subnetAllocator (final o) = subnetAllocator w)
  /\ (forall later, outages w = false :: true :: later ->
      calls o = [GetSubnet name; DeleteSubnet name] /\
      registry (final o) = registry w /\
      subnetAllocator (final o) = subnetAllocator w).
Proof.
  intros Hl Hip. cbv zeta. split.
  - intros Hrel. rewrite (run_changed_ip_model w name ip sub Hrel Hl Hip).
    cbn [final registry set_registry subnetAllocator]. split; [|split].
    + rewrite lookup_cons, String.eqb_refl. reflexivity.
    + intros other Hne. rewrite lookup_cons.
      destruct (String.eqb_spec name other) as [-> | _]; [congruence|].
      apply lookup_remove_other. exact Hne.
    + reflexivity.
  - intros later Hout. unfold watchNodes_event, calls.
    cbn [NType ENode Name IP run].
    rewrite (model_GetSubnet_up w name (true :: later) Hout), Hl. cbn [fst snd].
    apply String.eqb_neq in Hip. rewrite Hip. cbn [negb run].
    rewrite (model_DeleteSubnet_out (set_outages w (true :: later)) name later eq_refl).
    cbn. repeat split.
Qed.

(** *** A lookup that fails *)

(** C10, for every behaviour of the collaborators.  When GetSubnet returns
    an error, whatever its cause, both the Added handler and the sweep go on
    with addNode for that node, and addNode starts by asking the allocator
    for a network. *)
Theorem lookup_error_means_addNode W (h : Handler W) (w : W) (name ip : string)
    (e : error) (rest : list Node) :
  fst (h (GetSubnet name) w) = Err e ->
  let a := run h (addNode name ip) (snd (h (GetSubnet name) w)) in
  events (run h (watchNodes_event (mkNodeEvent Added (mkNode name ip))) w)
    = Ev (GetSubnet name) (Err e) :: events a
  /\ (exists tl, events (run h (serveExistingNodes (mkNode name ip :: rest)) w)
                 = Ev (GetSubnet name) (Err e) :: events a ++ tl)
  /\ (exists tl, events a
                 = Ev GetNetwork (fst (h GetNetwork (snd (h (GetSubnet name) w)))) :: tl).
Proof.
  intros Hget. cbv zeta.
  unfold watchNodes_event. cbn [NType ENode Name IP serveExistingNodes run events].
  destruct (h (GetSubnet name) w) as [r w1]. cbn [fst snd] in *. subst r.
  rewrite !events_bind. cbn [run events]. rewrite app_nil_r.
  split; [reflexivity|]. split.
  - eexists. reflexivity.
  - unfold addNode. cbn [run events]. eexists. reflexivity.
Qed.

Lemma lookup_error_means_addNode_witness :
  let a := run model (addNode "n1" "192.168.0.1") w1 in
  lookup "n1" (registry w1) = Some (mkSubnet "192.168.0.1" "10.1.0.0/24") /\
  events (run model (watchNodes_event (mkNodeEvent Added (mkNode "n1" "192.168.0.1")))
                    w1_outage)
    = Ev (GetSubnet "n1") (Err unavailable) :: events a
  /\ (exists tl, events (run model (serveExistingNodes [mkNode "n1" "192.168.0.1"]) w1_outage)
                 = Ev (GetSubnet "n1") (Err unavailable) :: events a ++ tl)
  /\ (exists tl, events a = Ev GetNetwork (Ok (mkIPNet 167838208 24)) :: tl).
Proof.
  split; [vm_compute; reflexivity|].
  exact (lookup_error_means_addNode World model w1_outage "n1" "192.168.0.1"
           unavailable [] eq_refl).
Defined.

(* ===================================================================== *)
(** * Further properties of subnets.go *)
(* ===================================================================== *)

(** *** addNode, whatever the collaborators reply *)

(** X1, for every behaviour of the collaborators.  addNode either gets an
    error from the allocator and returns it; or gets a network and rejects
    the address; or gets a network [sn] and writes the record (nodeIP,
    sn.String()) under the node's name, returning what CreateSubnet returned.
    It makes no other call: in particular a network whose record could not
    be written is not given back to the allocator. *)
Theorem addNode_steps W (h : Handler W) (w : W) (nodeName nodeIP : string) :
  let o := run h (addNode nodeName nodeIP) w in
  (exists e, events o = [Ev GetNetwork (Err e)] /\ value o = Some e)
  \/ (exists sn,
        invalid_ip nodeIP = true /\
        events o = [Ev GetNetwork (Ok sn)] /\ value o = Some "Invalid node IP")
  \/ (exists sn written,
        invalid_ip nodeIP = false /\
        events o = [Ev GetNetwork (Ok sn);
                    Ev (CreateSubnet nodeName (mkSubnet nodeIP (IPNet_String sn))) written] /\
        value o = written).
Proof.
  cbv zeta. unfold addNode. cbn [run]. fold (invalid_ip nodeIP).
  destruct (h GetNetwork w) as [[sn | e] w1]; cbn [fst snd].
  - destruct (invalid_ip nodeIP) eqn:Hip.
    + right; left. exists sn. repeat split.
    + right; right. cbn [run].
      destruct (h (CreateSubnet nodeName (mkSubnet nodeIP (IPNet_String sn))) w1)
        as [[e |] w2]; cbn; exists sn; eexists; repeat split.
  - left. exists e. split; reflexivity.
Qed.

(** *** addNode followed by deleteNode *)

(** X2, for every behaviour of the collaborators.  The record addNode writes
    for a network [sn] (in the form the allocator and net.ParseCIDR produce
    networks) carries enough to undo it: when the lookup returns that record,
    deleteNode releases exactly [sn] and then deletes the record. *)
Theorem deleteNode_releases_what_addNode_wrote W (h : Handler W) (w : W)
    (nodeName nodeIP : string) (sn : IPNet) :
  canonical sn ->
  fst (h (GetSubnet nodeName) w) = Ok (mkSubnet nodeIP (IPNet_String sn)) ->
  let o := run h (deleteNode nodeName) w in
  exists released deleted,
    events o = [Ev (GetSubnet nodeName) (Ok (mkSubnet nodeIP (IPNet_String sn)));
                Ev (ReleaseNetwork sn) released;
                Ev (DeleteSubnet nodeName) deleted] /\
    value o = deleted.
Proof.
  intros Hsn Hget. cbv zeta. unfold deleteNode. cbn [run].
  destruct (h (GetSubnet nodeName) w) as [r w1]. cbn [fst snd] in *. subst r.
  cbn [SubnetCIDR]. rewrite (ParseCIDR_String sn Hsn). cbn [run].
  do 2 eexists. split; reflexivity.
Qed.

Lemma deleteNode_releases_what_addNode_wrote_witness :
  canonical (mkIPNet 167838976 24) /\
  exists released deleted,
    events (run model (deleteNode "n1") w_n1)
    = [Ev (GetSubnet "n1") (Ok (mkSubnet "1.1.1.1" (IPNet_String (mkIPNet 167838976 24))));
       Ev (ReleaseNetwork (mkIPNet 167838976 24)) released;
       Ev (DeleteSubnet "n1") deleted] /\
    value (run model (deleteNode "n1") w_n1) = deleted.
Proof.
  assert (Hc : canonical (mkIPNet 167838976 24)).
  { unfold canonical. cbn [Ones Addr]. split; [lia|]. split; reflexivity. }
  split; [exact Hc|].
  exact (deleteNode_releases_what_addNode_wrote World model w_n1 "n1" "1.1.1.1"
           (mkIPNet 167838976 24) Hc eq_refl).
Defined.

(** *** Start-up of the master, step by step *)

(** X3, for every behaviour of the collaborators.  subnetStartMaster lists
    the subnets, reads the cluster network and the host subnet length, builds
    the allocator from them with the listed subnets' CIDRs in the order
    listed, starts the node watch and sweeps the nodes it returned.  The
    first of these calls that fails ends the function with that very error
    and nothing is called after it; otherwise the result is the sweep's. *)
Theorem subnetStartMaster_steps W (h : Handler W) (w : W) :
  let o := run h subnetStartMaster w in
  (exists e, events o = [Ev GetSubnets (Err e)] /\ value o = Some e)
  \/ (exists subnets version e,
        events o = [Ev GetSubnets (Ok (subnets, version));
                    Ev GetClusterNetworkCIDR (Err e)] /\
        value o = Some e)
  \/ (exists subnets version cn e,
        events o = [Ev GetSubnets (Ok (subnets, version));
                    Ev GetClusterNetworkCIDR (Ok cn);
                    Ev GetHostSubnetLength (Err e)] /\
        value o = Some e)
  \/ (exists subnets version cn hsl e,
        events o = [Ev GetSubnets (Ok (subnets, version));
                    Ev GetClusterNetworkCIDR (Ok cn);
                    Ev GetHostSubnetLength (Ok hsl);
                    Ev (NewSubnetAllocator cn (uint hsl) (map SubnetCIDR subnets)) (Some e)] /\
        value o = Some e)
  \/ (exists subnets version cn hsl e,
        events o = master_seed_events subnets version cn hsl
                   ++ [Ev WatchAndGetNodes (Err e)] /\
        value o = Some e)
  \/ (exists subnets version cn hsl nodes w',
        events o = master_seed_events subnets version cn hsl
                   ++ Ev WatchAndGetNodes (Ok nodes)
                      :: events (run h (serveExistingNodes nodes) w') /\
        value o = value (run h (serveExistingNodes nodes) w') /\
        final o = final (run h (serveExistingNodes nodes) w')).
Proof.
  cbv zeta. unfold subnetStartMaster, master_seed_events. cbn [run].
  destruct (h GetSubnets w) as [[[subnets version] | e] w1]; cbn [fst snd run events value].
  2:{ left. exists e. split; reflexivity. }
  destruct (h GetClusterNetworkCIDR w1) as [[cn | e] w2]; cbn [fst snd run events value].
  2:{ right; left. exists subnets, version, e. split; reflexivity. }
  destruct (h GetHostSubnetLength w2) as [[hsl | e] w3]; cbn [fst snd run events value].
  2:{ right; right; left. exists subnets, version, cn, e. split; reflexivity. }
  destruct (h (NewSubnetAllocator cn (uint hsl) (map SubnetCIDR subnets)) w3)
    as [[e |] w4]; cbn [fst snd run events value].
  { right; right; right; left. exists subnets, version, cn, hsl, e. split; reflexivity. }
  destruct (h WatchAndGetNodes w4) as [[nodes | e] w5]; cbn [fst snd run events value final].
  2:{ right; right; right; right; left. exists subnets, version, cn, hsl, e.
      split; reflexivity. }
  right; right; right; right; right. exists subnets, version, cn, hsl, nodes, w5.
  repeat split.
Qed.

(** *** Start-up of the node, step by step *)

Lemma initSelfSubnet_outcome W (h : Handler W) (w : W) (oc : OvsController) :
  let o := run h (initSelfSubnet oc) w in
  (exists es e,
      length es = 20 /\ events o = failed_attempts (hostName oc) es /\
      e = last es "" /\
      value o = (oc, Some (bootstrap_error (hostName oc) e)))
  \/ (exists es s,
        length es < 20 /\
        events o = failed_attempts (hostName oc) es ++ [Ev (GetSubnet (hostName oc)) (Ok s)] /\
        value o = (set_localSubnet oc (Some s), None)).
Proof.
  cbv zeta. unfold initSelfSubnet. rewrite run_bind. cbn [events value final].
  destruct (initSelfSubnet_loop_shape W h (hostName oc) retries w None None)
    as [(es & Hlen & Hev & Hval) | (es & s & Hlen & Hev & Hval)].
  - left. rewrite (Hval ltac:(discriminate)), Hev. cbn [snd fst run events value final].
    exists es, (last es ""). rewrite app_nil_r. split; [exact Hlen|].
    split; [reflexivity|]. split; reflexivity.
  - right. rewrite Hval, Hev. cbn [snd fst run events value final]. exists es, s.
    rewrite app_nil_r. split; [exact Hlen|]. split; reflexivity.
Qed.

(** X4, for every behaviour of the collaborators.  When the bootstrap has
    found the host's subnet [s], subnetStartNode keeps it as the local subnet
    and then reads the cluster network and the services network and calls
    Setup with the CIDR of [s], the two networks read and the node's MTU,
    before it asks for the subnets.  The first of these calls that fails ends
    the function with that very error and nothing is called after it; when
    the bootstrap fails, nothing but its lookups and pauses was done and the
    controller is as it was. *)
Theorem subnetStartNode_steps W (h : Handler W) (w : W) (oc : OvsController) :
  let o := run h (subnetStartNode oc) w in
  (exists es msg,
      length es = 20 /\ events o = failed_attempts (hostName oc) es /\
      value o = (oc, Some msg))
  \/ (exists es s,
        length es < 20 /\
        let found := failed_attempts (hostName oc) es ++ [Ev (GetSubnet (hostName oc)) (Ok s)] in
        let oc' := set_localSubnet oc (Some s) in
        (exists e, events o = found ++ [Ev GetClusterNetworkCIDR (Err e)] /\
                   value o = (oc', Some e))
        \/ (exists cn e,
              events o = found ++ [Ev GetClusterNetworkCIDR (Ok cn);
                                   Ev GetServicesNetworkCIDR (Err e)] /\
              value o = (oc', Some e))
        \/ (exists cn sn e,
              events o = found ++ [Ev GetClusterNetworkCIDR (Ok cn);
                                   Ev GetServicesNetworkCIDR (Ok sn);
                                   Ev (Setup (SubnetCIDR s) cn sn (nodeMtu oc)) (Some e)] /\
              value o = (oc', Some e))
        \/ (exists cn sn e,
              events o = found ++ node_config_events oc s cn sn
                         ++ [Ev WatchAndGetSubnets (Err e)] /\
              value o = (oc', Some e))
        \/ (exists cn sn subnets,
              events o = found ++ node_config_events oc s cn sn
                         ++ Ev WatchAndGetSubnets (Ok subnets)
                            :: map (fun p => Ev (add_rule oc p) tt) subnets /\
              value o = (oc', None))).
Proof.
  cbv zeta. unfold subnetStartNode, node_config_events. rewrite run_bind.
  cbn [events value final].
  destruct (initSelfSubnet_outcome W h w oc)
    as [(es & e & Hlen & Hev & _ & Hval) | (es & s & Hlen & Hev & Hval)];
    rewrite Hval, Hev; cbn [snd fst run events value final].
  - left. exists es. eexists. rewrite !app_nil_r. split; [exact Hlen|]. split; reflexivity.
  - right. exists es, s. split; [exact Hlen|].
    set (w1 := final (run h (initSelfSubnet oc) w)).
    destruct (h GetClusterNetworkCIDR w1) as [[cn | e] w2]; cbn [fst snd run events value final].
    2:{ left. exists e. split; reflexivity. }
    destruct (h GetServicesNetworkCIDR w2) as [[sn | e] w3]; cbn [fst snd run events value final].
    2:{ right; left. exists cn, e. split; reflexivity. }
    unfold localSubnetCIDR. cbn [localSubnet set_localSubnet nodeMtu].
    destruct (h (Setup (SubnetCIDR s) cn sn (nodeMtu oc)) w3) as [[e |] w4];
      cbn [fst snd run events value final].
    { right; right; left. exists cn, sn, e. split; reflexivity. }
    destruct (h WatchAndGetSubnets w4) as [[subnets | e] w5];
      cbn [fst snd run events value final].
    2:{ right; right; right; left. exists cn, sn, e. split; reflexivity. }
    right; right; right; right. exists cn, sn, subnets.
    rewrite run_bind. cbn [fst snd run events value final].
    rewrite addRules_events, app_nil_r. split; reflexivity.
Qed.

(** *** The bootstrap: time and error *)

Lemma slept_app (a b : list Call) : slept (a ++ b) = (slept a + slept b)%Z.
Proof.
  induction a as [| c a IH]; cbn [app slept fold_right]; [reflexivity|].
  fold (slept (a ++ b)). fold (slept a). rewrite IH. destruct c; lia.
Qed.

Lemma slept_failed_attempts (host : string) (es : list error) :
  slept (map ev_call (failed_attempts host es)) = (retryInterval * Z.of_nat (length es))%Z.
Proof.
  induction es as [| e es IH]; [reflexivity|].
  cbn [failed_attempts flat_map failed_attempt app map ev_call length].
  change (slept (GetSubnet host :: Sleep retryInterval
                   :: map ev_call (flat_map (failed_attempt host) es)))
    with (retryInterval + slept (map ev_call (failed_attempts host es)))%Z.
  rewrite IH. lia.
Qed.

(** X5, for every behaviour of the registry.  initSelfSubnet pauses 500 ms
    per failed lookup and at no other moment: a bootstrap that fails has
    paused for 10 s in all (the time-out its comment announces), one that
    succeeds for less, at most 9.5 s. *)
Theorem initSelfSubnet_pauses W (h : Handler W) (w : W) (oc : OvsController) :
  let o := run h (initSelfSubnet oc) w in
  match snd (value o) with
  | Some _ => slept (calls o) = (10 * 1000 * Millisecond)%Z
  | None => (0 <= slept (calls o) <= 9500 * Millisecond)%Z
  end.
Proof.
  cbv zeta. unfold calls.
  destruct (initSelfSubnet_outcome W h w oc)
    as [(es & e & Hlen & Hev & _ & Hval) | (es & s & Hlen & Hev & Hval)];
    rewrite Hval, Hev; cbn [snd].
  - rewrite slept_failed_attempts, Hlen. reflexivity.
  - rewrite map_app, slept_app, slept_failed_attempts. cbn [map ev_call slept fold_right].
    unfold retryInterval, Millisecond. lia.
Qed.

(** X6, for every behaviour of the registry.  When initSelfSubnet fails,
    the error it returns names the host and carries the error of the last of
    its 20 lookups. *)
Theorem initSelfSubnet_reports_last_error W (h : Handler W) (w : W) (oc : OvsController) :
  let o := run h (initSelfSubnet oc) w in
  snd (value o) <> None ->
  exists es,
    length es = 20 /\
    events o = failed_attempts (hostName oc) es /\
    snd (value o) = Some (bootstrap_error (hostName oc) (last es "")).
Proof.
  cbv zeta.
  destruct (initSelfSubnet_outcome W h w oc)
    as [(es & e & Hlen & Hev & He & Hval) | (es & s & Hlen & Hev & Hval)];
    rewrite Hval; cbn [snd]; intros Hfail; [|congruence].
  exists es. subst e. repeat split; assumption.
Qed.

Lemma initSelfSubnet_reports_last_error_witness :
  exists es,
    length es = 20 /\
    events (run model (initSelfSubnet (mkOvsController "n9" "192.168.0.9" None 1450)) w1)
    = failed_attempts "n9" es /\
    snd (value (run model (initSelfSubnet (mkOvsController "n9" "192.168.0.9" None 1450)) w1))
    = Some (bootstrap_error "n9" (last es "")).
Proof.
  apply (initSelfSubnet_reports_last_error World model w1
           (mkOvsController "n9" "192.168.0.9" None 1450)).
  vm_compute. discriminate.
Defined.

(** *** Which collaborators each role reaches *)

Lemma avoids_bind A B (bad : Call -> bool) (m : Prog A) (f : A -> Prog B) :
  avoids bad m -> (forall a, avoids bad (f a)) -> avoids bad (bind m f).
Proof.
  intros Hm Hf. induction Hm as [a | c k Hc _ IH]; cbn [bind]; [apply Hf|].
  apply avoids_Do; [exact Hc | exact IH].
Qed.

Lemma avoids_calls W R (bad : Call -> bool) (h : Handler W) (p : Prog R) :
  avoids bad p -> forall w, Forall (fun c => bad c = false) (calls (run h p w)).
Proof.
  unfold calls. intros Hp. induction Hp as [r | c k Hc _ IH]; intros w; cbn; [constructor|].
  constructor; [exact Hc | apply IH].
Qed.

Ltac avoids_step :=
  match goal with
  | |- avoids _ (Ret _) => apply avoids_Ret
  | |- avoids _ (Do _ _) => apply avoids_Do; [reflexivity | intros ?]
  | |- avoids _ (bind _ _) => apply avoids_bind; [| intros ?]
  | |- avoids _ (match ?x with _ => _ end) => destruct x
  | |- avoids _ (if ?b then _ else _) => destruct b
  end.

Lemma addNode_avoids_node_only (name ip : string) : avoids node_only (addNode name ip).
Proof. unfold addNode. repeat avoids_step. Qed.

Lemma deleteNode_avoids_node_only (name : string) : avoids node_only (deleteNode name).
Proof. unfold deleteNode. repeat avoids_step. Qed.

Lemma serveExistingNodes_avoids_node_only (nodes : list Node) :
  avoids node_only (serveExistingNodes nodes).
Proof.
  induction nodes as [| node rest IH]; cbn [serveExistingNodes]; [apply avoids_Ret|].
  apply avoids_Do; [reflexivity | intros [s | e]]; [exact IH|].
  apply avoids_bind; [apply addNode_avoids_node_only|].
  intros [e' |]; [apply avoids_Ret | exact IH].
Qed.

Lemma watchNodes_event_avoids_node_only (ev : NodeEvent) :
  avoids node_only (watchNodes_event ev).
Proof.
  unfold watchNodes_event. destruct (NType ev).
  - apply avoids_Do; [reflexivity | intros [sub | e]].
    + repeat avoids_step.
    + apply avoids_bind; [apply addNode_avoids_node_only | intros ?; apply avoids_Ret].
  - apply avoids_bind; [apply deleteNode_avoids_node_only | intros ?; apply avoids_Ret].
Qed.

Lemma watchNodes_loop_avoids_node_only (inbox : list (Recv NodeEvent)) :
  avoids node_only (watchNodes_loop inbox).
Proof.
  induction inbox as [| [ev |] rest IH]; cbn [watchNodes_loop].
  - apply avoids_Ret.
  - apply avoids_bind; [apply watchNodes_event_avoids_node_only | intros ?; exact IH].
  - repeat avoids_step.
Qed.

(** X7, for every behaviour of the collaborators and every sequence of
    deliveries.  The master side (subnetStartMaster, watchNodes) never calls
    the flow controller (Setup, AddOFRules, DelOFRules), never pauses, never
    reads the services network and never touches the subnet watch. *)
Theorem master_never_programs_flows W (h : Handler W) (w : W)
    (inbox : list (Recv NodeEvent)) :
  Forall (fun c => node_only c = false) (calls (run h subnetStartMaster w)) /\
  Forall (fun c => node_only c = false) (calls (run h (watchNodes inbox) w)).
Proof.
  split; apply avoids_calls.
  - unfold subnetStartMaster.
    apply avoids_Do; [reflexivity | intros [[subnets version] | e]]; [|apply avoids_Ret].
    apply avoids_Do; [reflexivity | intros [cn | e]]; [|apply avoids_Ret].
    apply avoids_Do; [reflexivity | intros [hsl | e]]; [|apply avoids_Ret].
    apply avoids_Do; [reflexivity | intros [e |]]; [apply avoids_Ret|].
    apply avoids_Do; [reflexivity | intros [nodes | e]]; [|apply avoids_Ret].
    apply serveExistingNodes_avoids_node_only.
  - unfold watchNodes. apply avoids_Do; [reflexivity | intros _].
    apply watchNodes_loop_avoids_node_only.
Qed.

Lemma initSelfSubnet_loop_avoids_master_only (host : string) (togo : nat) :
  forall subnet err, avoids master_only (initSelfSubnet_loop host togo subnet err).
Proof.
  induction togo as [| togo IH]; intros subnet err; cbn [initSelfSubnet_loop].
  - apply avoids_Ret.
  - apply avoids_Do; [reflexivity | intros [s | e]]; [apply avoids_Ret|].
    apply avoids_Do; [reflexivity | intros _]. apply IH.
Qed.

Lemma addRules_avoids_master_only (oc : OvsController) (subnets : list Subnet) :
  avoids master_only (addRules oc subnets).
Proof.
  induction subnets as [| s rest IH]; cbn [addRules]; [apply avoids_Ret|].
  apply avoids_Do; [reflexivity | intros _; exact IH].
Qed.

Lemma watchSubnets_loop_avoids_master_only (oc : OvsController)
    (inbox : list (Recv SubnetEvent)) :
  avoids master_only (watchSubnets_loop oc inbox).
Proof.
  induction inbox as [| [ev |] rest IH]; cbn [watchSubnets_loop].
  - apply avoids_Ret.
  - apply avoids_bind; [|intros ?; exact IH].
    unfold watchSubnets_event. destruct (SType ev); repeat avoids_step.
  - repeat avoids_step.
Qed.

(** X8, for every behaviour of the collaborators and every sequence of
    deliveries.  The node side (subnetStartNode, watchSubnets) only reads the
    registry: it never creates or deletes a Subnet record, never builds or
    uses the allocator and never touches the node watch. *)
Theorem node_never_writes_registry W (h : Handler W) (w : W) (oc : OvsController)
    (inbox : list (Recv SubnetEvent)) :
  Forall (fun c => master_only c = false) (calls (run h (subnetStartNode oc) w)) /\
  Forall (fun c => master_only c = false) (calls (run h (watchSubnets oc inbox) w)).
Proof.
  split; apply avoids_calls.
  - unfold subnetStartNode. apply avoids_bind.
    + unfold initSelfSubnet. apply avoids_bind.
      * apply initSelfSubnet_loop_avoids_master_only.
      * intros [s [e |]]; apply avoids_Ret.
    + intros [oc1 [e |]]; cbn [fst snd]; [apply avoids_Ret|].
      apply avoids_Do; [reflexivity | intros [cn | e]]; [|apply avoids_Ret].
      apply avoids_Do; [reflexivity | intros [sn | e]]; [|apply avoids_Ret].
      apply avoids_Do; [reflexivity | intros [e |]]; [apply avoids_Ret|].
      apply avoids_Do; [reflexivity | intros [subnets | e]]; [|apply avoids_Ret].
      apply avoids_bind; [apply addRules_avoids_master_only | intros ?; apply avoids_Ret].
  - unfold watchSubnets. apply avoids_Do; [reflexivity | intros _].
    apply watchSubnets_loop_avoids_master_only.
Qed.

(** *** The sweep over a list of nodes in two parts *)

(** X9, for every behaviour of the collaborators.  Sweeping the nodes
    [a ++ b] is sweeping [a] and, when that ended without error, sweeping [b]
    from where it ended; when the sweep of [a] ended with an error, that is
    the result and no node of [b] is looked at. *)
Theorem serveExistingNodes_app W (h : Handler W) (a b : list Node) (w : W) :
  let o1 := run h (serveExistingNodes a) w in
  let o2 := run h (serveExistingNodes b) (final o1) in
  run h (serveExistingNodes (a ++ b)) w =
  match value o1 with
  | Some _ => o1
  | None => mkOutcome (events o1 ++ events o2) (final o2) (value o2)
  end.
Proof.
  cbv zeta. revert w. induction a as [| node rest IH]; intros w.
  - cbn. destruct (run h (serveExistingNodes b) w); reflexivity.
  - cbn [app serveExistingNodes run].
    destruct (h (GetSubnet (Name node)) w) as [[s | e] w1]; cbn [fst snd].
    + rewrite IH.
      destruct (run h (serveExistingNodes rest) w1) as [ev1 f1 [e1 |]]; reflexivity.
    + rewrite !run_bind. cbn [events final value].
      destruct (run h (addNode (Name node) (IP node)) w1) as [ev0 f0 [e0 |]];
        cbn [events final value run]; [reflexivity|].
      rewrite IH.
      destruct (run h (serveExistingNodes rest) f0) as [ev1 f1 [e1 |]];
        cbn [events final value]; [reflexivity|].
      cbn [app]. rewrite app_assoc. reflexivity.
Qed.

(** *** Joining and leaving on the reference handler *)

Lemma filter_out_absent (sn : IPNet) (l : list IPNet) :
  ~ In sn l -> filter (fun m => negb (IPNet_eqb sn m)) l = l.
Proof.
  induction l as [| m l IH]; intros Hnot; cbn [filter]; [reflexivity|].
  destruct (IPNet_eqb sn m) eqn:E.
  - apply IPNet_eqb_eq in E. subst. exfalso. apply Hnot. left. reflexivity.
  - cbn [negb]. rewrite IH; [reflexivity|]. intros Hin. apply Hnot. right. exact Hin.
Qed.

Lemma remove_name_absent (name : string) (r : list (string * Subnet)) :
  lookup name r = None -> remove_name name r = r.
Proof.
  unfold remove_name. induction r as [| [n s] r IH]; intros Hl; cbn [filter fst];
    [reflexivity|].
  rewrite lookup_cons in Hl. destruct (n =? name); [discriminate|].
  cbn [negb]. rewrite IH by exact Hl. reflexivity.
Qed.

Lemma IPNet_eqb_refl (n : IPNet) : IPNet_eqb n n = true.
Proof. apply IPNet_eqb_eq. reflexivity. Qed.

Lemma final_added_unknown (w : World) (name ip : string) :
  reliable w -> lookup name (registry w) = None ->
  final (run model (watchNodes_event (mkNodeEvent Added (mkNode name ip))) w)
  = final (run model (addNode name ip) w).
Proof.
  intros Hrel Hl. unfold watchNodes_event. cbn [NType ENode Name IP run].
  rewrite model_GetSubnet by exact Hrel. rewrite Hl. cbn [fst snd final].
  rewrite final_bind. reflexivity.
Qed.

Lemma final_deleted (w : World) (name ip : string) :
  final (run model (watchNodes_event (mkNodeEvent Deleted (mkNode name ip))) w)
  = final (run model (deleteNode name) w).
Proof. unfold watchNodes_event. cbn [NType ENode Name]. rewrite final_bind. reflexivity. Qed.

Lemma master_after_two (w : World) (e1 e2 : NodeEvent) :
  master_after w [e1; e2]
  = final (run model (watchNodes_event e2) (final (run model (watchNodes_event e1) w))).
Proof.
  unfold master_after, watchNodes. cbn [run final model fst snd events_only map watchNodes_loop].
  rewrite !final_bind. reflexivity.
Qed.

(** X10.  On a registry without transient failures and a well-formed
    allocator, a node that was unknown, joins with an address addNode accepts
    and leaves again leaves no trace: the registry holds the records it held
    and the allocator's exclusion set is the one it was, so the network is
    free again. *)
Theorem join_then_leave_restores (w : World) (a : SubnetAllocator) (name ip : string) :
  reliable w ->
  subnetAllocator w = Some a ->
  wf_allocator a ->
  lookup name (registry w) = None ->
  invalid_ip ip = false ->
  let w' := master_after w (join_then_leave name ip) in
  registry w' = registry w /\ excluded w' = excluded w.
Proof.
  intros Hrel Ha (Hcan & Hcap & Hpool) Hl Hip. cbv zeta.
  unfold join_then_leave. rewrite master_after_two.
  rewrite (final_added_unknown w name ip Hrel Hl), final_deleted.
  rewrite (run_addNode_model w a name ip Hrel Ha), Hip.
  unfold excluded at 2. rewrite Ha.
  destruct (alloc_GetNetwork a) as [[sn | e] a'] eqn:Hget; cbn [final].
  - apply alloc_GetNetwork_Ok in Hget. destruct Hget as (Hin & Hfree & ->).
    assert (Hsn : canonical sn) by (apply (pool_canonical _ _ Hcan Hcap); exact Hin).
    match goal with
    | |- context [run model (deleteNode name) ?x] =>
        rewrite (run_deleteNode_model x
                   (mkSubnetAllocator (network a) (capacity a) (sn :: allocMap a))
                   name Hrel eq_refl)
    end.
    cbn [registry set_registry set_allocator].
    rewrite lookup_cons, String.eqb_refl. cbn [SubnetCIDR].
    rewrite (ParseCIDR_String sn Hsn). cbn [final registry set_registry excluded
                                            subnetAllocator set_allocator].
    split.
    + unfold remove_name. cbn [filter fst]. rewrite String.eqb_refl. cbn [negb].
      apply remove_name_absent. exact Hl.
    + unfold alloc_ReleaseNetwork, inUse. cbn [allocMap existsb].
      rewrite IPNet_eqb_refl. cbn [orb snd allocMap filter].
      rewrite IPNet_eqb_refl. cbn [negb].
      apply filter_out_absent. exact Hfree.
  - apply alloc_GetNetwork_Err in Hget. subst a'.
    rewrite (run_deleteNode_model (set_allocator w (Some a)) a name Hrel eq_refl).
    cbn [registry set_allocator]. rewrite Hl. cbn. split; reflexivity.
Qed.

Lemma join_then_leave_restores_witness :
  let w' := master_after w1 (join_then_leave "n3" "192.168.0.3") in
  registry w' = registry w1 /\ excluded w' = excluded w1.
Proof.
  apply (join_then_leave_restores w1
           (mkSubnetAllocator (mkIPNet 167837696 16) 8
              [mkIPNet 167837952 24; mkIPNet 167837696 24]) "n3" "192.168.0.3").
  - reflexivity.
  - vm_compute. reflexivity.
  - split; [|split].
    + unfold canonical. cbn [network Ones Addr]. split; [lia|]. split; reflexivity.
    + cbn [network capacity Ones]. lia.
    + cbn [allocMap network capacity]. intros x [<- | [<- | []]].
      * apply In_pool. exists 1%N. split; reflexivity.
      * apply In_pool. exists 0%N. split; reflexivity.
  - vm_compute. reflexivity.
  - reflexivity.
Defined.

(** *** The same event delivered twice *)

Lemma final_deleteNode_again (w : World) (a : SubnetAllocator) (name : string) :
  reliable w -> subnetAllocator w = Some a ->
  let w1 := final (run model (deleteNode name) w) in
  final (run model (deleteNode name) w1) = w1.
Proof.
  intros Hrel Ha. cbv zeta. rewrite (run_deleteNode_model w a name Hrel Ha).
  destruct (lookup name (registry w)) as [sub |] eqn:Hl.
  - destruct (ParseCIDR (SubnetCIDR sub)) as [ipnet | e] eqn:Hp; cbn [final].
    + match goal with
      | |- final (run model (deleteNode name) ?x) = _ =>
          rewrite (run_deleteNode_model x (snd (alloc_ReleaseNetwork ipnet a)) name
                     Hrel eq_refl)
      end.
      cbn [registry set_registry]. rewrite lookup_remove_name. reflexivity.
    + rewrite (run_deleteNode_model w a name Hrel Ha), Hl, Hp. reflexivity.
  - cbn [final]. rewrite (run_deleteNode_model w a name Hrel Ha), Hl. reflexivity.
Qed.

(** X11.  On a registry without transient failures, with the allocator
    built: a node event delivered a second time right after the first changes
    nothing, provided an Added event carries an address addNode accepts.  (An
    Added event with a rejected address takes a network at each delivery.) *)
Theorem replayed_event_changes_nothing (w : World) (a : SubnetAllocator) (ev : NodeEvent) :
  reliable w ->
  subnetAllocator w = Some a ->
  valid_event ev ->
  let w1 := final (run model (watchNodes_event ev) w) in
  final (run model (watchNodes_event ev) w1) = w1.
Proof.
  intros Hrel Ha Hvalid. cbv zeta.
  destruct ev as [[|] [name ip]]; unfold valid_event in Hvalid; cbn [NType ENode IP] in Hvalid.
  - destruct (lookup name (registry w)) as [sub |] eqn:Hl.
    + destruct (String.eqb_spec (NodeIP sub) ip) as [Hip | Hip].
      * rewrite (run_same_ip_model w name ip sub Hrel Hl Hip). cbn [final].
        rewrite (run_same_ip_model w name ip sub Hrel Hl Hip). reflexivity.
      * rewrite (run_changed_ip_model w name ip sub Hrel Hl Hip). cbn [final].
        match goal with
        | |- final (run model _ ?x) = _ =>
            rewrite (run_same_ip_model x name ip (mkSubnet ip (SubnetCIDR sub)) Hrel)
        end; [reflexivity | | reflexivity].
        cbn [registry set_registry]. rewrite lookup_cons, String.eqb_refl. reflexivity.
    + rewrite (final_added_unknown w name ip Hrel Hl).
      rewrite (run_addNode_model w a name ip Hrel Ha), Hvalid.
      destruct (alloc_GetNetwork a) as [[sn | e] a'] eqn:Hget; cbn [final].
      * match goal with
        | |- final (run model _ ?x) = _ =>
            rewrite (run_same_ip_model x name ip (mkSubnet ip (IPNet_String sn)) Hrel)
        end; [reflexivity | | reflexivity].
        cbn [registry set_registry]. rewrite lookup_cons, String.eqb_refl. reflexivity.
      * apply alloc_GetNetwork_Err in Hget as Ha'. subst a'.
        rewrite (final_added_unknown (set_allocator w (Some a)) name ip Hrel Hl).
        rewrite (run_addNode_model (set_allocator w (Some a)) a name ip Hrel eq_refl).
        rewrite Hvalid, Hget. reflexivity.
  - rewrite !final_deleted. apply (final_deleteNode_again w a name Hrel Ha).
Qed.

Lemma replayed_event_changes_nothing_witness :
  let ev := mkNodeEvent Added (mkNode "n1" "2.2.2.2") in
  let w' := final (run model (watchNodes_event ev) w_n1) in
  final (run model (watchNodes_event ev) w') = w'.
Proof.
  apply (replayed_event_changes_nothing w_n1
           (mkSubnetAllocator (mkIPNet 167837696 16) 8 [mkIPNet 167838976 24])
           (mkNodeEvent Added (mkNode "n1" "2.2.2.2"))); reflexivity.
Defined.

(** *** What an event leaves alone *)

Lemma deleteNode_registry (w : World) (name : string) :
  reliable w ->
  let r := registry (final (run model (deleteNode name) w)) in
  r = registry w \/ r = remove_name name (registry w).
Proof.
  intros Hrel. cbv zeta. unfold deleteNode. cbn [run].
  rewrite model_GetSubnet by exact Hrel. cbn [fst snd].
  destruct (lookup name (registry w)) as [sub |] eqn:Hl; [|left; reflexivity].
  destruct (ParseCIDR (SubnetCIDR sub)) as [ipnet | e]; [|left; reflexivity].
  right. cbn [run final].
  set (w1 := snd (model (ReleaseNetwork ipnet) w)).
  assert (Hw1 : reliable w1 /\ registry w1 = registry w).
  { subst w1. cbn [model]. destruct (subnetAllocator w); cbn; auto. }
  destruct Hw1 as [Hrel1 Hreg1].
  rewrite (model_DeleteSubnet w1 name sub Hrel1) by (rewrite Hreg1; exact Hl).
  cbn [fst snd run final registry set_registry]. rewrite Hreg1. reflexivity.
Qed.

(** X12.  On a registry without transient failures, a node event changes no
    Subnet record but that of the node it names: every other node is found,
    or not found, exactly as before the event. *)
Theorem event_leaves_other_nodes_alone (w : World) (ev : NodeEvent) (other : string) :
  reliable w ->
  other <> Name (ENode ev) ->
  lookup other (registry (final (run model (watchNodes_event ev) w)))
  = lookup other (registry w).
Proof.
  intros Hrel Hne. destruct ev as [[|] [name ip]]; cbn [ENode Name] in Hne.
  - destruct (lookup name (registry w)) as [sub |] eqn:Hl.
    + destruct (String.eqb_spec (NodeIP sub) ip) as [Hip | Hip].
      * rewrite (run_same_ip_model w name ip sub Hrel Hl Hip). reflexivity.
      * rewrite (run_changed_ip_model w name ip sub Hrel Hl Hip).
        cbn [final registry set_registry]. rewrite lookup_cons.
        destruct (String.eqb_spec name other) as [-> | _]; [congruence|].
        apply lookup_remove_other. exact Hne.
    + rewrite (final_added_unknown w name ip Hrel Hl).
      destruct (addNode_effect w name ip Hrel)
        as (_ & [(_ & sub & _ & Hreg) | (_ & _ & Hreg)]); rewrite Hreg; [|reflexivity].
      rewrite lookup_cons.
      destruct (String.eqb_spec name other) as [-> | _]; [congruence | reflexivity].
  - rewrite final_deleted.
    destruct (deleteNode_registry w name Hrel) as [-> | ->]; [reflexivity|].
    apply lookup_remove_other. exact Hne.
Qed.

Lemma event_leaves_other_nodes_alone_witness :
  lookup "n2" (registry (final (run model
     (watchNodes_event (mkNodeEvent Deleted (mkNode "n1" "192.168.0.1"))) w1)))
  = lookup "n2" (registry w1).
Proof.
  apply (event_leaves_other_nodes_alone w1
           (mkNodeEvent Deleted (mkNode "n1" "192.168.0.1")) "n2").
  - reflexivity.
  - cbn. discriminate.
Defined.

(** *** A node that joins is found, a node that leaves is gone *)

(** X13.  On a registry without transient failures: when an unknown node
    joins with an address addNode accepts and the allocator issues the
    network [sn], the node is found afterwards with a Subnet made of the
    event's IP and the printed form of [sn], and [sn] is in the exclusion
    set. *)
Theorem joined_node_is_found (w : World) (a a' : SubnetAllocator) (name ip : string)
    (sn : IPNet) :
  reliable w ->
  subnetAllocator w = Some a ->
  alloc_GetNetwork a = (Ok sn, a') ->
  lookup name (registry w) = None ->
  invalid_ip ip = false ->
  let w' := final (run model (watchNodes_event (mkNodeEvent Added (mkNode name ip))) w) in
  lookup name (registry w') = Some (mkSubnet ip (IPNet_String sn)) /\
  In sn (excluded w').
Proof.
  intros Hrel Ha Hget Hl Hip. cbv zeta.
  rewrite (final_added_unknown w name ip Hrel Hl).
  rewrite (run_addNode_model w a name ip Hrel Ha), Hget, Hip. cbn [final].
  apply alloc_GetNetwork_Ok in Hget. destruct Hget as (_ & _ & ->).
  cbn [registry set_registry excluded subnetAllocator set_allocator allocMap].
  rewrite lookup_cons, String.eqb_refl. split; [reflexivity | left; reflexivity].
Qed.

Lemma joined_node_is_found_witness :
  let w' := final (run model
              (watchNodes_event (mkNodeEvent Added (mkNode "n3" "192.168.0.3"))) w_seeded) in
  lookup "n3" (registry w') = Some (mkSubnet "192.168.0.3" (IPNet_String (mkIPNet 167837696 24)))
  /\ In (mkIPNet 167837696 24) (excluded w').
Proof.
  apply (joined_node_is_found w_seeded
           (mkSubnetAllocator (mkIPNet 167837696 16) 8 [])
           (mkSubnetAllocator (mkIPNet 167837696 16) 8 [mkIPNet 167837696 24])
           "n3" "192.168.0.3" (mkIPNet 167837696 24)).
  - reflexivity.
  - reflexivity.
  - vm_compute. reflexivity.
  - reflexivity.
  - reflexivity.
Defined.

(** X14.  On a registry without transient failures, with the allocator
    built: when a node whose Subnet's CIDR parses to the network [n] leaves,
    the node is not found afterwards and [n] is no longer in the exclusion
    set. *)
Theorem left_node_is_gone (w : World) (a : SubnetAllocator) (name ip : string)
    (sub : Subnet) (n : IPNet) :
  reliable w ->
  subnetAllocator w = Some a ->
  lookup name (registry w) = Some sub ->
  ParseCIDR (SubnetCIDR sub) = Ok n ->
  let w' := final (run model (watchNodes_event (mkNodeEvent Deleted (mkNode name ip))) w) in
  lookup name (registry w') = None /\ ~ In n (excluded w').
Proof.
  intros Hrel Ha Hl Hp. cbv zeta. rewrite final_deleted.
  rewrite (run_deleteNode_model w a name Hrel Ha), Hl, Hp. cbn [final].
  cbn [registry set_registry excluded subnetAllocator set_allocator].
  split; [apply lookup_remove_name|].
  destruct (alloc_ReleaseNetwork_spec n a) as (_ & _ & Hmap).
  intros Hin. apply Hmap in Hin. destruct Hin as [_ Hne]. apply Hne. reflexivity.
Qed.

Lemma left_node_is_gone_witness :
  let w' := final (run model
              (watchNodes_event (mkNodeEvent Deleted (mkNode "n1" "1.1.1.1"))) w_n1) in
  lookup "n1" (registry w') = None /\ ~ In (mkIPNet 167838976 24) (excluded w').
Proof.
  apply (left_node_is_gone w_n1
           (mkSubnetAllocator (mkIPNet 167837696 16) 8 [mkIPNet 167838976 24])
           "n1" "1.1.1.1" (mkSubnet "1.1.1.1" "10.1.5.0/24") (mkIPNet 167838976 24)).
  - reflexivity.
  - reflexivity.
  - reflexivity.
  - vm_compute. reflexivity.
Defined.

(** *** Restarting the master *)

Lemma model_keeps_config (c : Call) (w : World) : config (snd (model c w)) = config w.
Proof.
  destruct c; cbn [model]; unfold registry_call;
    try (destruct (outages w) as [| [|] o]; cbn; try reflexivity).
  all: repeat match goal with
         | |- context [match ?x with _ => _ end] => destruct x; cbn
         end; reflexivity.
Qed.

Lemma run_keeps_config R (p : Prog R) :
  forall w, config (final (run model p w)) = config w.
Proof.
  induction p as [r | c k IH]; intros w; cbn [run final]; [reflexivity|].
  rewrite IH. apply model_keeps_config.
Qed.

Lemma model_keeps_parent (c : Call) (w : World) :
  builds_allocator c = false -> parent (snd (model c w)) = parent w.
Proof.
  intros Hc. unfold parent.
  destruct c; try discriminate Hc; cbn [model]; try reflexivity.
  all: try (unfold registry_call; destruct (outages w) as [| [|] o];
            cbn [snd subnetAllocator set_outages registry];
            repeat match goal with
              | |- context [match lookup ?n ?r with _ => _ end] => destruct (lookup n r)
              end; reflexivity).
  - destruct (subnetAllocator w) as [a |] eqn:Ha; cbn [snd subnetAllocator set_allocator];
      [|rewrite Ha; reflexivity].
    unfold alloc_GetNetwork. destruct (find _ _); reflexivity.
  - destruct (subnetAllocator w) as [a |] eqn:Ha; cbn [snd subnetAllocator set_allocator];
      [|rewrite Ha; reflexivity].
    unfold alloc_ReleaseNetwork. destruct (inUse _ _); reflexivity.
Qed.

Lemma run_keeps_parent R (p : Prog R) :
  avoids builds_allocator p -> forall w, parent (final (run model p w)) = parent w.
Proof.
  intros Hp. induction Hp as [r | c k Hc _ IH]; intros w; cbn [run final]; [reflexivity|].
  rewrite IH. apply model_keeps_parent. exact Hc.
Qed.

Lemma serveExistingNodes_keeps_allocator (nodes : list Node) :
  avoids builds_allocator (serveExistingNodes nodes).
Proof.
  induction nodes as [| node rest IH]; cbn [serveExistingNodes]; [apply avoids_Ret|].
  apply avoids_Do; [reflexivity | intros [s | e]]; [exact IH|].
  apply avoids_bind; [unfold addNode; repeat avoids_step|].
  intros [e' |]; [apply avoids_Ret | exact IH].
Qed.

Lemma sweep_keeps_found (nodes : list Node) :
  forall w, reliable w ->
  forall name s, lookup name (registry w) = Some s ->
  lookup name (registry (final (run model (serveExistingNodes nodes) w))) = Some s.
Proof. intros w Hrel. exact (proj1 (proj2 (sweep_creates nodes w Hrel))). Qed.

Lemma sweep_covers (nodes : list Node) :
  forall w, reliable w ->
  value (run model (serveExistingNodes nodes) w) = None ->
  forall node, In node nodes ->
  lookup (Name node) (registry (final (run model (serveExistingNodes nodes) w))) <> None.
Proof.
  induction nodes as [| node rest IH]; intros w Hrel Hv n Hin; [destruct Hin|].
  revert Hv. cbn [serveExistingNodes run value final].
  rewrite model_GetSubnet by exact Hrel. cbn [fst snd].
  destruct (lookup (Name node) (registry w)) as [s |] eqn:Hl.
  - intros Hv. destruct Hin as [<- | Hin]; [|apply IH; assumption].
    rewrite (sweep_keeps_found rest w Hrel _ s Hl). discriminate.
  - rewrite value_bind, final_bind.
    destruct (addNode_effect w (Name node) (IP node) Hrel)
      as (Hrel' & [(Hv0 & sub & _ & Hreg) | (Hv0 & _ & _)]).
    + rewrite Hv0. intros Hv. destruct Hin as [<- | Hin]; [|apply IH; assumption].
      rewrite (sweep_keeps_found rest _ Hrel' (Name node) sub); [discriminate|].
      rewrite Hreg, lookup_cons, String.eqb_refl. reflexivity.
    + destruct (value (run model (addNode (Name node) (IP node)) w)); [|congruence].
      cbn. discriminate.
Qed.

Lemma seed_complete (net : IPNet) (cap : N) (r : list (string * Subnet)) :
  Forall parses r -> NoDup (map net_of r) -> incl (map net_of r) (pool net cap) ->
  seed net cap (map SubnetCIDR (map snd r)) = Some (map net_of r).
Proof.
  induction r as [| p r IH]; intros Hparse Hnd Hincl; [reflexivity|].
  inversion Hparse as [| ? ? [n Hn] Hparse']; subst.
  inversion Hnd as [| ? ? Hnotin Hnd']; subst.
  cbn [map seed]. rewrite Hn, IH; [|assumption | assumption |
    intros x Hx; apply Hincl; right; exact Hx].
  assert (Hnet : net_of p = n) by (unfold net_of; rewrite Hn; reflexivity).
  cbn [map] in *. rewrite Hnet in *.
  assert (H1 : inUse n (pool net cap) = true)
    by (apply inUse_In, Hincl; left; reflexivity).
  assert (H2 : inUse n (map net_of r) = false) by (apply inUse_not_In; exact Hnotin).
  rewrite H1, H2. reflexivity.
Qed.

Lemma run_subnetStartMaster_model (w : World) :
  reliable w ->
  run model subnetStartMaster w =
  match alloc_New (clusterNetworkCIDR w) (uint (hostSubnetLength w))
                  (map SubnetCIDR (map snd (registry w))) with
  | Err e =>
      mkOutcome [Ev GetSubnets (Ok (map snd (registry w), ""));
                 Ev GetClusterNetworkCIDR (Ok (clusterNetworkCIDR w));
                 Ev GetHostSubnetLength (Ok (hostSubnetLength w));
                 Ev (NewSubnetAllocator (clusterNetworkCIDR w) (uint (hostSubnetLength w))
                       (map SubnetCIDR (map snd (registry w)))) (Some e)]
                (set_allocator w None) (Some e)
  | Ok a =>
      let o := run model (serveExistingNodes (clusterNodes w)) (set_allocator w (Some a)) in
      mkOutcome (master_seed_events (map snd (registry w)) "" (clusterNetworkCIDR w)
                   (hostSubnetLength w)
                 ++ Ev WatchAndGetNodes (Ok (clusterNodes w)) :: events o)
                (final o) (value o)
  end.
Proof.
  intros Hrel. unfold subnetStartMaster, master_seed_events. cbn [run model].
  rewrite !registry_call_reliable by exact Hrel. cbn [fst snd run model].
  rewrite !registry_call_reliable by exact Hrel. cbn [fst snd run model].
  rewrite !registry_call_reliable by exact Hrel. cbn [fst snd run model].
  destruct (alloc_New (clusterNetworkCIDR w) (uint (hostSubnetLength w))
              (map SubnetCIDR (map snd (registry w)))) as [a | e];
    cbn [fst snd run model]; [|reflexivity].
  rewrite !registry_call_reliable by exact Hrel. cbn [fst snd run model app].
  reflexivity.
Qed.

(** X15.  On a registry without transient failures and with one record per
    node name: when the master has started once, starting it again on what
    the first start left (a restart with the same nodes) succeeds, asks the
    allocator for nothing, leaves every Subnet record as it is, and ends with
    an exclusion set that lists the live Subnets' networks, each once. *)
Theorem restart_changes_nothing (w : World) :
  reliable w ->
  NoDup (map fst (registry w)) ->
  value (run model subnetStartMaster w) = None ->
  let w1 := final (run model subnetStartMaster w) in
  let o := run model subnetStartMaster w1 in
  value o = None /\
  ~ In GetNetwork (calls o) /\
  registry (final o) = registry w1 /\
  excluded (final o) = live_nets w1 /\
  NoDup (excluded (final o)).
Proof.
  intros Hrel Hnames Hstart. cbv zeta.
  pose proof (subnetStartMaster_Synced w Hrel Hnames Hstart) as [Hinv _].
  pose proof (run_keeps_config _ subnetStartMaster w) as Hcfg.
  revert Hstart Hinv Hcfg. rewrite (run_subnetStartMaster_model w Hrel).
  destruct (alloc_New (clusterNetworkCIDR w) (uint (hostSubnetLength w))
              (map SubnetCIDR (map snd (registry w)))) as [a | e] eqn:Hnew;
    cbn [value final]; [|discriminate].
  set (w1 := final (run model (serveExistingNodes (clusterNodes w))
                      (set_allocator w (Some a)))).
  intros Hsweep (Hrel1 & _ & Hparse1 & Hnets1 & a1 & Ha1 & (_ & _ & Hpool1) & Hincl1) Hcfg.
  assert (Hparent : parent w1 = Some (network a, capacity a)).
  { subst w1. rewrite (run_keeps_parent _ _ (serveExistingNodes_keeps_allocator _)).
    reflexivity. }
  unfold parent in Hparent. rewrite Ha1 in Hparent. injection Hparent as Hn1 Hc1.
  unfold config in Hcfg. injection Hcfg as Hcn Hhsl _ Hnodes.
  assert (Hnew1 : alloc_New (clusterNetworkCIDR w1) (uint (hostSubnetLength w1))
                    (map SubnetCIDR (map snd (registry w1)))
                  = Ok (mkSubnetAllocator (network a) (capacity a) (live_nets w1))).
  { rewrite Hcn, Hhsl. revert Hnew. unfold alloc_New.
    destruct (ParseCIDR (clusterNetworkCIDR w)) as [net | e]; [|discriminate].
    destruct (uint (hostSubnetLength w) <=? 32 - Ones net)%N; [|discriminate].
    destruct (seed net _ _); [|discriminate]. intros [= <-]. cbn [network capacity] in *.
    rewrite (seed_complete net (uint (hostSubnetLength w)) (registry w1) Hparse1 Hnets1);
      [reflexivity|].
    intros x Hx. rewrite <- Hn1, <- Hc1. apply Hpool1, Hincl1. exact Hx. }
  rewrite (run_subnetStartMaster_model w1 Hrel1), Hnew1. cbv zeta.
  assert (Hcov : forall node, In node (clusterNodes w1) ->
                   lookup (Name node) (registry w1) <> None).
  { rewrite Hnodes. subst w1. apply sweep_covers; [exact Hrel | exact Hsweep]. }
  destruct (sweep_of_covered_nodes (clusterNodes w1)
              (set_allocator w1 (Some (mkSubnetAllocator (network a) (capacity a)
                                         (live_nets w1))))
              Hrel1 Hcov) as (Hcalls & Hfinal & Hvalue).
  cbn [value final]. rewrite Hvalue, Hfinal. split; [reflexivity|]. split.
  - unfold calls in *. cbn [events]. rewrite map_app. cbn [map]. rewrite Hcalls.
    intros Hin. apply in_app_or in Hin. destruct Hin as [Hin | [Hin | Hin]].
    + cbn in Hin. repeat destruct Hin as [Hin | Hin]; try discriminate Hin. exact Hin.
    + discriminate Hin.
    + apply in_map_iff in Hin. destruct Hin as (x & Hx & _). discriminate Hx.
  - split; [reflexivity|]. split; [reflexivity | exact Hnets1].
Qed.

Lemma restart_changes_nothing_witness :
  let o := run model subnetStartMaster w1 in
  value o = None /\
  ~ In GetNetwork (calls o) /\
  registry (final o) = registry w1 /\
  excluded (final o) = live_nets w1 /\
  NoDup (excluded (final o)).
Proof.
  apply (restart_changes_nothing w0).
  - reflexivity.
  - simpl. constructor.
  - vm_compute. reflexivity.
Defined.
